(** * tomoseg_gui: the annotation canvas, the slice viewer and the point archive

    A shallow embedding of [tomoseg_gui.py].  The two classes of the
    program, [ImageLabel] and [MainWindow], become records; their methods
    become functions with the names of the source.  Methods of
    [MainWindow] run in a small state-and-exception monad: an exception
    that leaves a method keeps the fields assigned before it was raised,
    as in Python.

    The numerical part follows numpy on IEEE 754 values ([spec_float] of
    the Standard Library, at the precision numpy computes at); the
    widgets of Qt are reduced to the attributes the program reads or
    writes. *)

From Stdlib Require Import ZArith List Bool String Ascii Lia.
From Stdlib Require Import SpecFloat.
From Stdlib Require Import Reals Lra Psatz.
Import ListNotations.
Local Open Scope Z_scope.

(** ** Python results *)

(** The exception classes the program can meet. *)
Inductive exn : Type :=
| ValueError
| IndexError
| TypeError
| AttributeError
| OSError.

(** The result of an expression that may raise. *)
Inductive result (A : Type) : Type :=
| Ok (a : A)
| Raise (e : exn).
Arguments Ok {A} a.
Arguments Raise {A} e.

Definition result_bind {A B : Type} (r : result A) (k : A -> result B) : result B :=
  match r with
  | Ok a => k a
  | Raise e => Raise e
  end.

(** ** Qt value types *)

(** [QPoint]: integer widget coordinates.  The positions of mouse events
    lie inside a widget (at most 16777215 pixels a side), far from the
    range of the C [int] that holds them, so they are unbounded integers
    here. *)
Module QPoint.
Record t : Type := mk { x : Z; y : Z }.

(** [p - q] *)
Definition sub (p q : t) : t := mk (x p - x q) (y p - y q).

(** [p.manhattanLength()] *)
Definition manhattanLength (p : t) : Z := Z.abs (x p) + Z.abs (y p).

(** [p == q] *)
Definition eqb (p q : t) : bool := (x p =? x q) && (y p =? y q).
End QPoint.

Module QSize.
Record t : Type := mk { width : Z; height : Z }.

(** The truth value of a [QSize] in PyQt5 is [isValid()]. *)
Definition isValid (s : t) : bool := (0 <=? width s) && (0 <=? height s).
End QSize.

(** ** numpy arrays *)

Module np.

Inductive dtype_t : Type := uint8 | int64 | float32 | float64.

(** An array: its dtype, its shape and its elements in row-major order. *)
Record ndarray (A : Type) : Type :=
  mk { dtype : dtype_t; shape : list nat; data : list A }.
Arguments mk {A} dtype shape data.
Arguments dtype {A} n.
Arguments shape {A} n.
Arguments data {A} n.

(** [a.size] *)
Definition size (shp : list nat) : nat := fold_right Nat.mul 1%nat shp.

(** [np.result_type] on the dtypes of the model. *)
Definition result_type (a b : dtype_t) : dtype_t :=
  match a, b with
  | uint8, d | d, uint8 => d
  | int64, int64 => int64
  | float32, float32 => float32
  | _, _ => float64
  end.

(** [np.array(rows)] for a list of rows of Python integers: the empty
    list gives a one-dimensional float64 array of length 0. *)
Definition array (rows : list (list Z)) : ndarray Z :=
  match rows with
  | [] => mk float64 [0%nat] []
  | r :: _ => mk int64 [Datatypes.length rows; Datatypes.length r] (List.concat rows)
  end.

(** [len(a)] *)
Definition len {A : Type} (a : ndarray A) : result nat :=
  match shape a with
  | [] => Raise TypeError
  | n :: _ => Ok n
  end.

(** [np.ones(n, dtype=int)] and [np.zeros(n, dtype=int)] *)
Definition ones (n : nat) : ndarray Z := mk int64 [n] (repeat 1 n).
Definition zeros (n : nat) : ndarray Z := mk int64 [n] (repeat 0 n).

(** [np.atleast_2d(a)] *)
Definition atleast_2d {A : Type} (a : ndarray A) : ndarray A :=
  match shape a with
  | [] => mk (dtype a) [1%nat; 1%nat] (data a)
  | [n] => mk (dtype a) [1%nat; n] (data a)
  | _ => a
  end.

Definition shape_eqb (s1 s2 : list nat) : bool :=
  (Datatypes.length s1 =? Datatypes.length s2)%nat
  && forallb (fun p => (fst p =? snd p)%nat) (combine s1 s2).

(** [np.concatenate((a, b), axis=0)]: the arrays must have the same
    number of dimensions, at least one, and agree on all of them but
    the first. *)
Definition concatenate {A : Type} (a b : ndarray A) : result (ndarray A) :=
  match shape a, shape b with
  | n :: ra, m :: rb =>
      if shape_eqb ra rb
      then Ok (mk (result_type (dtype a) (dtype b)) ((n + m)%nat :: ra)
                  (data a ++ data b))
      else Raise ValueError
  | _, _ => Raise ValueError
  end.

(** [np.vstack((a, b))] *)
Definition vstack {A : Type} (a b : ndarray A) : result (ndarray A) :=
  concatenate (atleast_2d a) (atleast_2d b).

(** [np.hstack((a, b))] for one-dimensional arrays, the only use the
    program makes of it: concatenation along the first axis. *)
Definition hstack {A : Type} (a b : ndarray A) : result (ndarray A) :=
  concatenate a b.

(** [a[i]] for a Python integer [i]: negative indices count from the
    end. *)
Definition getitem {A : Type} (a : ndarray A) (i : Z) : result (ndarray A) :=
  match shape a with
  | [] => Raise IndexError
  | n :: rest =>
      if (- Z.of_nat n <=? i) && (i <? Z.of_nat n)
      then
        let k := Z.to_nat (if i <? 0 then i + Z.of_nat n else i) in
        let sz := size rest in
        Ok (mk (dtype a) rest (firstn sz (skipn (k * sz) (data a))))
      else Raise IndexError
  end.

(** Elementwise application of a scalar function. *)
Definition map {A B : Type} (f : A -> B) (a : ndarray A) : ndarray B :=
  mk (dtype a) (shape a) (List.map f (data a)).

(** *** Floating-point arrays

    The elements of a floating-point array are IEEE 754 values; the
    arithmetic on them rounds at the precision of the dtype: binary32
    for [float32], binary64 otherwise (an array of one of the integer
    modes of an MRC file is promoted to float64 by its first meeting
    with a percentile, and its values are exact there).

    The percentiles are float64 values whatever the dtype of the array,
    and an operation of an array with a float64 array or with a float64
    scalar is done in float64, on the values of the array converted to
    float64 (the promotion rules of numpy 2; under the value-based rules
    of numpy 1 a float32 array combined with a float64 scalar stayed
    float32). *)

Definition prec (d : dtype_t) : Z := match d with float32 => 24 | _ => 53 end.
Definition emax (d : dtype_t) : Z := match d with float32 => 128 | _ => 1024 end.

Definition of_Z (d : dtype_t) (z : Z) : spec_float :=
  binary_normalize (prec d) (emax d) z 0 false.

Definition sub (d : dtype_t) (a b : spec_float) : spec_float := SFsub (prec d) (emax d) a b.
Definition add (d : dtype_t) (a b : spec_float) : spec_float := SFadd (prec d) (emax d) a b.
Definition mul (d : dtype_t) (a b : spec_float) : spec_float := SFmul (prec d) (emax d) a b.
Definition div (d : dtype_t) (a b : spec_float) : spec_float := SFdiv (prec d) (emax d) a b.

Definition isnan (a : spec_float) : bool :=
  match a with S754_nan => true | _ => false end.



(** One value of an array of dtype [d] converted to float64.  The
    conversion is exact: a float32 number is written with the mantissa
    and the exponent of its float64 form, the other values are kept. *)
Definition to_float64 (d : dtype_t) (a : spec_float) : spec_float :=
  match d, a with
  | float32, S754_finite s m e => binary_round (prec float64) (emax float64) s m e
  | _, _ => a
  end.

(** [a.astype(np.float64)] *)
Definition astype_float64 (a : ndarray spec_float) : ndarray spec_float :=
  mk float64 (shape a) (List.map (to_float64 (dtype a)) (data a)).

(** The integer part of a finite value, rounded toward zero, and whether
    the value is that integer. *)
Definition integer_part (a : spec_float) : option (Z * bool) :=
  match a with
  | S754_zero _ => Some (0, true)
  | S754_finite s m (Zneg k) =>
      let mag := Z.shiftr (Zpos m) (Zpos k) in
      Some (if s then - mag else mag, Z.shiftl mag (Zpos k) =? Zpos m)
  | S754_finite s m e =>
      let mag := Z.shiftl (Zpos m) e in
      Some (if s then - mag else mag, true)
  | _ => None
  end.

(** [np.floor(a)] as an integer, for a finite [a]. *)
Definition floor (a : spec_float) : Z :=
  match integer_part a with
  | Some (z, exact) => if exact || negb (SFltb a (S754_zero false)) then z else z - 1
  | None => 0
  end.

(** The conversion of one value by [astype(np.uint8)]: the C conversion
    of a floating-point value to an unsigned 8-bit integer drops the
    fractional part.  It is defined when the integer part fits the
    type; [None] stands for the other values (NaN, the infinities and
    what lies out of range), whose conversion C leaves undefined; numpy
    raises no exception for them. *)
Definition to_uint8 (a : spec_float) : option Z :=
  match integer_part a with
  | Some (z, _) => if (0 <=? z) && (z <=? 255) then Some z else None
  | None => None
  end.

(** [a.astype(np.uint8)] *)
Definition astype_uint8 (a : ndarray spec_float) : ndarray (option Z) :=
  mk uint8 (shape a) (List.map to_uint8 (data a)).

(** One element of [np.clip(a, lo, hi)]: [min(max(x, lo), hi)], where a
    NaN [x] is kept. *)
Definition clip1 (x lo hi : spec_float) : spec_float :=
  let m := if isnan x || SFltb lo x then x else lo in
  if isnan m || SFltb m hi then m else hi.

(** [np.clip(a, lo, hi)] *)
Definition clip (a : ndarray spec_float) (lo hi : spec_float) : ndarray spec_float :=
  map (fun x => clip1 x lo hi) a.

(** *** Percentiles

    [np.percentile] with its default method, linear interpolation
    between the two neighbours of the position [(n - 1) * q / 100] in
    the sorted values. *)

Fixpoint insert (x : spec_float) (l : list spec_float) : list spec_float :=
  match l with
  | [] => [x]
  | y :: l' => if SFleb x y then x :: l else y :: insert x l'
  end.

Definition sort (l : list spec_float) : list spec_float := fold_right insert [] l.

(** [l[i]] on a Python list or a one-dimensional array. *)
Definition item (l : list spec_float) (i : Z) : spec_float :=
  let n := Z.of_nat (Datatypes.length l) in
  nth (Z.to_nat (if i <? 0 then i + n else i)) l S754_nan.

(** The interpolation [a + (b - a) * t], taken from the side of [b]
    when [t >= 0.5].  The difference of the two neighbours is taken at
    the dtype of the array; the weight [t] is a float64 array, so the
    product and the sum are float64, and so is the percentile, whatever
    the dtype of the array. *)
Definition lerp (d : dtype_t) (a b t : spec_float) : spec_float :=
  let diff_b_a := to_float64 d (sub d b a) in
  if SFleb (div float64 (of_Z float64 1) (of_Z float64 2)) t
  then sub float64 (to_float64 d b) (mul float64 diff_b_a (sub float64 (of_Z float64 1) t))
  else add float64 (to_float64 d a) (mul float64 diff_b_a t).

(** The percentile [q] of sorted values without NaN. *)
Definition quantile (d : dtype_t) (sorted : list spec_float) (q : Z) : spec_float :=
  let n := Z.of_nat (Datatypes.length sorted) in
  let virtual_index := mul float64 (of_Z float64 (n - 1)) (div float64 (of_Z float64 q) (of_Z float64 100)) in
  let previous_index :=
    if SFltb virtual_index (S754_zero false) then 0
    else if SFleb (of_Z float64 (n - 1)) virtual_index then -1
    else floor virtual_index in
  let next_index :=
    if SFltb virtual_index (S754_zero false) then 0
    else if SFleb (of_Z float64 (n - 1)) virtual_index then -1
    else floor virtual_index + 1 in
  let gamma := sub float64 virtual_index (of_Z float64 previous_index) in
  lerp d (item sorted previous_index) (item sorted next_index) gamma.

(** [np.percentile(a, [q1, q2])] over the flattened array.  An array
    without elements has no percentile (numpy raises); an array that
    holds a NaN has NaN for every percentile. *)
Definition percentile (a : ndarray spec_float) (q1 q2 : Z) : result (spec_float * spec_float) :=
  if (size (shape a) =? 0)%nat then Raise IndexError
  else if existsb isnan (data a) then Ok (S754_nan, S754_nan)
  else
    let sorted := sort (data a) in
    Ok (quantile (dtype a) sorted q1, quantile (dtype a) sorted q2).

End np.

(** ** File names *)

Module os_path.

(** [s.rfind(c)]: the last index of the character, or -1. *)
Fixpoint rfind_from (c : ascii) (s : string) (i : Z) : Z :=
  match s with
  | EmptyString => -1
  | String a s' =>
      let r := rfind_from c s' (i + 1) in
      if 0 <=? r then r else if Ascii.eqb a c then i else -1
  end.

Definition rfind (c : ascii) (s : string) : Z := rfind_from c s 0.

(** [p[:i]] and [p[i:]] for [0 <= i]. *)
Definition upto (p : string) (i : Z) : string := substring 0 (Z.to_nat i) p.
Definition from (p : string) (i : Z) : string :=
  substring (Z.to_nat i) (String.length p - Z.to_nat i) p.

(** The loop of [splitext] over the leading dots of the file name:
    [true] when a character other than a dot stands before the last
    dot. *)
Fixpoint has_stem (p : string) (filenameIndex : Z) (steps : nat) : bool :=
  match steps with
  | O => false
  | S steps' =>
      match get (Z.to_nat filenameIndex) p with
      | Some "."%char => has_stem p (filenameIndex + 1) steps'
      | Some _ => true
      | None => false
      end
  end.

(** [os.path.splitext(p)] *)
Definition splitext (p : string) : string * string :=
  let sepIndex := rfind "/"%char p in
  let dotIndex := rfind "."%char p in
  if (sepIndex <? dotIndex)
     && has_stem p (sepIndex + 1) (Z.to_nat (dotIndex - (sepIndex + 1)))
  then (upto p dotIndex, from p dotIndex)
  else (p, ""%string).

(** [os.path.basename(p)] *)
Definition basename (p : string) : string := from p (rfind "/"%char p + 1).

(** [os.path.join(a, b)] *)
Definition join (a b : string) : string :=
  if prefix "/" b then b
  else if String.eqb a "" || String.eqb (from a (Z.of_nat (String.length a) - 1)) "/"
  then (a ++ b)%string
  else (a ++ "/" ++ b)%string.

Definition lower_char (c : ascii) : ascii :=
  let n := nat_of_ascii c in
  if (65 <=? n)%nat && (n <=? 90)%nat then ascii_of_nat (n + 32) else c.

(** [s.lower()] on the ASCII letters. *)
Fixpoint lower (s : string) : string :=
  match s with
  | EmptyString => EmptyString
  | String c s' => String (lower_char c) (lower s')
  end.

End os_path.

(** ** Images *)

(** [QImage(bits, width, height, bytesPerLine, QImage.Format_Grayscale8)] *)
Record QImage : Type := mkQImage {
  bits : list (option Z);
  img_width : nat;
  img_height : nat;
  bytesPerLine : nat }.

Inductive QPixmap : Type :=
| NullPixmap                                   (* [QPixmap()] *)
| FromFile (image_path : string)               (* [QPixmap(image_path)] *)
| FromImage (image : QImage)                   (* [QPixmap.fromImage(image)] *)
| Scaled (pixmap : QPixmap) (size : QSize.t).  (* [pixmap.scaled(size, Qt.KeepAspectRatio, Qt.SmoothTransformation)] *)

(** [pixmap.scaled(max_size, ...) if max_size else pixmap] *)
Definition scaled_to (max_size : option QSize.t) (pixmap : QPixmap) : QPixmap :=
  match max_size with
  | Some s => if QSize.isValid s then Scaled pixmap s else pixmap
  | None => pixmap
  end.

(** ** The annotation canvas: class [ImageLabel] *)

(** The two values [current_mode] ever takes, ['foreground'] and
    ['background']. *)
Inductive mode : Type := foreground | background.

Inductive button : Type := LeftButton | RightButton | OtherButton.

Record ImageLabel : Type := mkImageLabel {
  points_foreground : list QPoint.t;
  points_background : list QPoint.t;
  current_mode : mode;
  image : QPixmap;
  point_size : Z }.

Definition set_points_foreground (l : list QPoint.t) (self : ImageLabel) : ImageLabel :=
  mkImageLabel l (points_background self) (current_mode self) (image self) (point_size self).

Definition set_points_background (l : list QPoint.t) (self : ImageLabel) : ImageLabel :=
  mkImageLabel (points_foreground self) l (current_mode self) (image self) (point_size self).

Definition set_current_mode (m : mode) (self : ImageLabel) : ImageLabel :=
  mkImageLabel (points_foreground self) (points_background self) m (image self) (point_size self).

(** [ImageLabel.__init__] *)
Definition ImageLabel_init : ImageLabel :=
  mkImageLabel [] [] foreground NullPixmap 5.

(** [ImageLabel.set_image] *)
Definition set_image (image_path : string) (max_size : option QSize.t) (self : ImageLabel) : ImageLabel :=
  mkImageLabel [] [] (current_mode self) (scaled_to max_size (FromFile image_path)) (point_size self).

(** [ImageLabel.set_mrc_image] *)
Definition set_mrc_image (pixmap : QPixmap) (max_size : option QSize.t) (self : ImageLabel) : ImageLabel :=
  mkImageLabel [] [] (current_mode self) (scaled_to max_size pixmap) (point_size self).

(** [point_list.remove(point)]: the list without its first element equal
    to [point].  Python raises when there is none; [remove_point] only
    removes a point it has just read from the same list (lemma
    [remove_in_member]), so the list is returned as it is in that case. *)
Fixpoint list_remove (point : QPoint.t) (point_list : list QPoint.t) : list QPoint.t :=
  match point_list with
  | [] => []
  | p :: rest =>
      if QPoint.eqb p point then rest else p :: list_remove point rest
  end.

(** [(point - pos).manhattanLength() <= radius] *)
Definition within (radius : Z) (pos point : QPoint.t) : bool :=
  QPoint.manhattanLength (QPoint.sub point pos) <=? radius.

(** The inner loop of [remove_point] over one list: [rest] is what the
    iteration has not visited yet.  [Some l] is the list after the
    removal that ends the method, [None] means the loop ran to its end. *)
Fixpoint remove_in (radius : Z) (pos : QPoint.t) (point_list rest : list QPoint.t)
  : option (list QPoint.t) :=
  match rest with
  | [] => None
  | point :: rest' =>
      if within radius pos point
      then Some (list_remove point point_list)
      else remove_in radius pos point_list rest'
  end.

(** [ImageLabel.remove_point] *)
Definition remove_point (pos : QPoint.t) (self : ImageLabel) : ImageLabel :=
  let radius := point_size self + 2 in
  match remove_in radius pos (points_foreground self) (points_foreground self) with
  | Some l => set_points_foreground l self
  | None =>
      match remove_in radius pos (points_background self) (points_background self) with
      | Some l => set_points_background l self
      | None => self
      end
  end.

(** [ImageLabel.mousePressEvent] *)
Definition mousePressEvent (b : button) (pos : QPoint.t) (self : ImageLabel) : ImageLabel :=
  match b with
  | LeftButton =>
      match current_mode self with
      | foreground => set_points_foreground (points_foreground self ++ [pos]) self
      | background => set_points_background (points_background self ++ [pos]) self
      end
  | RightButton => remove_point pos self
  | OtherButton => self
  end.

(** ** The main window: class [MainWindow] *)

(** The slice selector, a [QSpinBox]: its range, its value and whether
    its signal [valueChanged] is connected to [slice_changed]. *)
Record QSpinBox : Type := mkQSpinBox {
  minimum : Z;
  maximum : Z;
  value : Z;
  connected : bool }.

(** [QSpinBox()]: range 0 to 99, value 0. *)
Definition QSpinBox_init : QSpinBox := mkQSpinBox 0 99 0 false.

(** Qt keeps the value of a spin box inside its range. *)
Definition bound (lo hi v : Z) : Z := Z.max lo (Z.min hi v).

(** [setRange]: the new range, the value brought back into it, and the
    value [valueChanged] is emitted with when the value has changed. *)
Definition setRange (lo hi : Z) (sb : QSpinBox) : QSpinBox * option Z :=
  let hi' := if lo <? hi then hi else lo in
  let v := bound lo hi' (value sb) in
  (mkQSpinBox lo hi' v (connected sb), if v =? value sb then None else Some v).

(** [QSpinBox.setMinimum], [setMaximum] and [setValue] *)
Definition setMinimum (m : Z) (sb : QSpinBox) : QSpinBox * option Z :=
  setRange m (if m <? maximum sb then maximum sb else m) sb.

Definition setMaximum (m : Z) (sb : QSpinBox) : QSpinBox * option Z :=
  setRange (if minimum sb <? m then minimum sb else m) m sb.

Definition setValue (v : Z) (sb : QSpinBox) : QSpinBox * option Z :=
  let v' := bound (minimum sb) (maximum sb) v in
  (mkQSpinBox (minimum sb) (maximum sb) v' (connected sb),
   if v' =? value sb then None else Some v').

(** [valueChanged.connect(self.slice_changed)] *)
Definition connect (sb : QSpinBox) : QSpinBox :=
  mkQSpinBox (minimum sb) (maximum sb) (value sb) true.

(** The modal notices of the program. *)
Inductive QMessageBox : Type :=
| information_saved (save_path : string)   (* "Points saved to ..." *)
| critical_save (e : exn)                  (* "Failed to save points: ..." *)
| critical_open (e : exn).                 (* "Failed to open MRC file: ..." *)

(** The archive [np.savez] writes from [data_dict]. *)
Record npz : Type := mk_npz {
  npz_filename : string;
  npz_points : np.ndarray Z;
  npz_labels : np.ndarray Z }.

(** What the file system answers during one call of [save_points]:
    whether [input_points] exists, and the results of [os.makedirs] and
    of [np.savez] if they are called. *)
Record filesystem : Type := mk_filesystem {
  path_exists : bool;
  makedirs : result unit;
  savez : result unit }.

(** The attributes of the window, followed by what it has shown and
    written so far (latest first). *)
Record MainWindow : Type := mkMainWindow {
  image_label : ImageLabel;
  foreground_action : bool;
  background_action : bool;
  mrc_data : option (np.ndarray spec_float);
  mrc_filename : string;
  current_slice : Z;
  total_slices : Z;
  slice_selector : option QSpinBox;
  window_size : QSize.t;
  toolbar_height : Z;
  message_boxes : list QMessageBox;
  files : list (string * npz) }.

Definition set_image_label (v : ImageLabel) (w : MainWindow) : MainWindow :=
  mkMainWindow v (foreground_action w) (background_action w) (mrc_data w)
    (mrc_filename w) (current_slice w) (total_slices w) (slice_selector w)
    (window_size w) (toolbar_height w) (message_boxes w) (files w).

Definition set_actions (fg bg : bool) (w : MainWindow) : MainWindow :=
  mkMainWindow (image_label w) fg bg (mrc_data w)
    (mrc_filename w) (current_slice w) (total_slices w) (slice_selector w)
    (window_size w) (toolbar_height w) (message_boxes w) (files w).

Definition set_mrc_data (v : option (np.ndarray spec_float)) (w : MainWindow) : MainWindow :=
  mkMainWindow (image_label w) (foreground_action w) (background_action w) v
    (mrc_filename w) (current_slice w) (total_slices w) (slice_selector w)
    (window_size w) (toolbar_height w) (message_boxes w) (files w).

Definition set_mrc_filename (v : string) (w : MainWindow) : MainWindow :=
  mkMainWindow (image_label w) (foreground_action w) (background_action w) (mrc_data w)
    v (current_slice w) (total_slices w) (slice_selector w)
    (window_size w) (toolbar_height w) (message_boxes w) (files w).

Definition set_current_slice (v : Z) (w : MainWindow) : MainWindow :=
  mkMainWindow (image_label w) (foreground_action w) (background_action w) (mrc_data w)
    (mrc_filename w) v (total_slices w) (slice_selector w)
    (window_size w) (toolbar_height w) (message_boxes w) (files w).

Definition set_total_slices (v : Z) (w : MainWindow) : MainWindow :=
  mkMainWindow (image_label w) (foreground_action w) (background_action w) (mrc_data w)
    (mrc_filename w) (current_slice w) v (slice_selector w)
    (window_size w) (toolbar_height w) (message_boxes w) (files w).

Definition set_slice_selector (v : option QSpinBox) (w : MainWindow) : MainWindow :=
  mkMainWindow (image_label w) (foreground_action w) (background_action w) (mrc_data w)
    (mrc_filename w) (current_slice w) (total_slices w) v
    (window_size w) (toolbar_height w) (message_boxes w) (files w).

Definition show_message_box (v : QMessageBox) (w : MainWindow) : MainWindow :=
  mkMainWindow (image_label w) (foreground_action w) (background_action w) (mrc_data w)
    (mrc_filename w) (current_slice w) (total_slices w) (slice_selector w)
    (window_size w) (toolbar_height w) (v :: message_boxes w) (files w).

Definition write_file (path : string) (v : npz) (w : MainWindow) : MainWindow :=
  mkMainWindow (image_label w) (foreground_action w) (background_action w) (mrc_data w)
    (mrc_filename w) (current_slice w) (total_slices w) (slice_selector w)
    (window_size w) (toolbar_height w) (message_boxes w) ((path, v) :: files w).

(** *** Methods as state transformers that may raise *)

(** A method of the window: from the window before the call to the
    value returned or the exception raised, and the window then. *)
Definition method (A : Type) : Type := MainWindow -> result A * MainWindow.

Definition ret {A : Type} (a : A) : method A := fun w => (Ok a, w).

Definition bind {A B : Type} (c : method A) (k : A -> method B) : method B :=
  fun w =>
    match c w with
    | (Ok a, w') => k a w'
    | (Raise e, w') => (Raise e, w')
    end.

Definition raise {A : Type} (e : exn) : method A := fun w => (Raise e, w).

(** An expression evaluated inside a method. *)
Definition eval {A : Type} (r : result A) : method A := fun w => (r, w).

(** Reading and assigning attributes of [self]. *)
Definition self : method MainWindow := fun w => (Ok w, w).
Definition assign (f : MainWindow -> MainWindow) : method unit := fun w => (Ok tt, f w).

(** [try: body except Exception as e: handler(e)] *)
Definition try_except (body : method unit) (handler : exn -> method unit) : method unit :=
  fun w =>
    match body w with
    | (Ok a, w') => (Ok a, w')
    | (Raise e, w') => handler e w'
    end.

Declare Scope method_scope.
Delimit Scope method_scope with method.
Notation "x <- c ;; k" := (bind c (fun x => k))
  (at level 61, c at next level, right associativity) : method_scope.
Notation "c ;; k" := (bind c (fun _ => k))
  (at level 61, right associativity) : method_scope.
Local Open Scope method_scope.

(** [MainWindow.__init__]: the window is resized to 1000 by 800; the
    height of its tool bar is what Qt computes for the platform. *)
Definition MainWindow_init (toolbar_height : Z) : MainWindow :=
  mkMainWindow (set_current_mode foreground ImageLabel_init) true false None ""%string 0 0 None
    (QSize.mk 1000 800) toolbar_height [] [].

(** [MainWindow.get_max_image_size] *)
Definition get_max_image_size (w : MainWindow) : QSize.t :=
  let available_width := QSize.width (window_size w) - 50 in
  let available_height := QSize.height (window_size w) - toolbar_height w - 50 in
  QSize.mk available_width available_height.

(** The array [normalized_image] of [show_mrc_slice].  The percentiles
    are float64 scalars: [np.clip] and the arithmetic that follows work
    on the slice converted to float64. *)
Definition normalize (slice_data : np.ndarray spec_float) (p01 p99 : spec_float)
  : np.ndarray spec_float :=
  let d := np.float64 in
  let clipped_image := np.clip (np.astype_float64 slice_data) p01 p99 in
  np.map (fun c => np.mul d (np.div d (np.sub d c p01) (np.sub d p99 p01)) (np.of_Z d 255))
    clipped_image.

(** The image [show_mrc_slice] builds from a slice (its lines 174 to
    178): the percentiles, the normalized array, the unpacking of its
    shape into [height, width], and the 8-bit image. *)
Definition render_slice (slice_data : np.ndarray spec_float) : result QImage :=
  result_bind (np.percentile slice_data 1 99) (fun p =>
  let normalized_image := normalize slice_data (fst p) (snd p) in
  match np.shape normalized_image with
  | [height; width] =>
      Ok (mkQImage (np.data (np.astype_uint8 normalized_image)) width height width)
  | _ => Raise ValueError
  end).

(** [self.mrc_data[slice_index]]; [None] cannot be indexed. *)
Definition mrc_slice (w : MainWindow) (slice_index : Z) : result (np.ndarray spec_float) :=
  match mrc_data w with
  | Some a => np.getitem a slice_index
  | None => Raise TypeError
  end.

(** [MainWindow.show_mrc_slice] *)
Definition show_mrc_slice (slice_index : Z) : method unit :=
  w <- self ;;
  slice_data <- eval (mrc_slice w slice_index) ;;
  image <- eval (render_slice slice_data) ;;
  let pixmap := FromImage image in
  let max_size := get_max_image_size w in
  assign (fun w => set_image_label (set_mrc_image pixmap (Some max_size) (image_label w)) w).

(** [MainWindow.slice_changed] *)
Definition slice_changed (value : Z) : method unit :=
  assign (set_current_slice value) ;;
  w <- self ;;
  show_mrc_slice (current_slice w).

(** A call on [self.slice_selector] that may change its value: Qt then
    emits [valueChanged], which runs [slice_changed] with the new value
    once the signal is connected. *)
Definition on_slice_selector (f : QSpinBox -> QSpinBox * option Z) : method unit :=
  w <- self ;;
  match slice_selector w with
  | None => raise AttributeError
  | Some sb =>
      let (sb', emitted) := f sb in
      assign (set_slice_selector (Some sb')) ;;
      match emitted with
      | Some v => if connected sb' then slice_changed v else ret tt
      | None => ret tt
      end
  end.

(** [MainWindow.create_slice_selector] *)
Definition create_slice_selector : method unit :=
  w <- self ;;
  match slice_selector w with
  | Some _ => on_slice_selector (setMaximum (total_slices w))
  | None =>
      assign (set_slice_selector (Some QSpinBox_init)) ;;
      on_slice_selector (setMinimum 0) ;;
      on_slice_selector (setMaximum (total_slices w)) ;;
      on_slice_selector (setValue (current_slice w)) ;;
      on_slice_selector (fun sb => (connect sb, None))
  end.

(** [self.mrc_data.shape[0]] *)
Definition shape0 {A : Type} (a : np.ndarray A) : result nat :=
  match np.shape a with
  | [] => Raise IndexError
  | n :: _ => Ok n
  end.

(** [MainWindow.open_mrc_file]; [mrc] is what [mrcfile.open(filename,
    permissive=True)] gives for the file: its data or an exception. *)
Definition open_mrc_file (filename : string) (mrc : result (np.ndarray spec_float))
  : method unit :=
  try_except
    (data <- eval mrc ;;
     assign (set_mrc_data (Some data)) ;;
     assign (set_mrc_filename filename) ;;
     n <- eval (np.len data) ;;
     assign (set_current_slice (Z.of_nat n / 2)) ;;
     n0 <- eval (shape0 data) ;;
     assign (set_total_slices (Z.of_nat n0 - 1)) ;;
     w <- self ;;
     show_mrc_slice (current_slice w) ;;
     create_slice_selector)
    (fun e => assign (show_message_box (critical_open e))).

(** [MainWindow.open_image]; [filename] is what the file dialog
    returns, the empty string when it was cancelled.  [QToolBar] has no
    method [removeWidget]: looking it up raises. *)
Definition open_image (filename : string) (mrc : result (np.ndarray spec_float))
  : method unit :=
  if String.eqb filename ""%string then ret tt
  else
    let ext := os_path.lower (snd (os_path.splitext filename)) in
    if String.eqb ext ".mrc"%string then open_mrc_file filename mrc
    else
      assign (set_mrc_data None) ;;
      assign (set_mrc_filename ""%string) ;;
      w <- self ;;
      let max_size := get_max_image_size w in
      assign (fun w => set_image_label (set_image filename (Some max_size) (image_label w)) w) ;;
      match slice_selector w with
      | Some _ => raise AttributeError
      | None => ret tt
      end.

(** [MainWindow.set_foreground_mode] and [set_background_mode] *)
Definition set_foreground_mode : method unit :=
  assign (set_actions true false) ;;
  assign (fun w => set_image_label (set_current_mode foreground (image_label w)) w).

Definition set_background_mode : method unit :=
  assign (set_actions false true) ;;
  assign (fun w => set_image_label (set_current_mode background (image_label w)) w).

(** [MainWindow.clear_points] *)
Definition clear_points : method unit :=
  assign (fun w => set_image_label (set_points_foreground [] (image_label w)) w) ;;
  assign (fun w => set_image_label (set_points_background [] (image_label w)) w).

(** [[p.x(), p.y()] for p in points] *)
Definition rows (points : list QPoint.t) : list (list Z) :=
  List.map (fun p => [QPoint.x p; QPoint.y p]) points.

(** [MainWindow.save_points] *)
Definition save_points (fs : filesystem) : method unit :=
  (if path_exists fs then ret tt else eval (makedirs fs)) ;;
  w <- self ;;
  let points_foreground := np.array (rows (points_foreground (image_label w))) in
  let points_background := np.array (rows (points_background (image_label w))) in
  all_points <- eval (np.vstack points_foreground points_background) ;;
  m <- eval (np.len points_foreground) ;;
  k <- eval (np.len points_background) ;;
  labels <- eval (np.hstack (np.ones m) (np.zeros k)) ;;
  let data_dict := mk_npz (mrc_filename w) all_points labels in
  let base_filename := fst (os_path.splitext (os_path.basename (npz_filename data_dict))) in
  let base_filename := if String.eqb base_filename ""%string then "image"%string else base_filename in
  let save_path := os_path.join "input_points"%string (base_filename ++ "_points.npz")%string in
  try_except
    (eval (savez fs) ;;
     assign (write_file save_path data_dict) ;;
     assign (show_message_box (information_saved save_path)))
    (fun e => assign (show_message_box (critical_save e))).

(** ** The event loop *)

(** What the user does, with what the outside world answers: the name
    chosen in the file dialog and the content [mrcfile] reads from it,
    the state of the file system during a save.  [SliceSelector v] is
    the user setting the spin box to [v]. *)
Inductive event : Type :=
| MousePress (b : button) (pos : QPoint.t)
| OpenAction (filename : string) (mrc : result (np.ndarray spec_float))
| SliceSelector (v : Z)
| ForegroundAction
| BackgroundAction
| ClearAction
| SaveAction (fs : filesystem).

(** The slot an event runs. *)
Definition handle (ev : event) : method unit :=
  match ev with
  | MousePress b pos =>
      assign (fun w => set_image_label (mousePressEvent b pos (image_label w)) w)
  | OpenAction filename mrc => open_image filename mrc
  | SliceSelector v =>
      w <- self ;;
      match slice_selector w with
      | Some _ => on_slice_selector (setValue v)
      | None => ret tt
      end
  | ForegroundAction => set_foreground_mode
  | BackgroundAction => set_background_mode
  | ClearAction => clear_points
  | SaveAction fs => save_points fs
  end.

(** The events of a session in turn, up to the first exception that
    leaves a slot. *)
Fixpoint run (evs : list event) : method unit :=
  match evs with
  | [] => ret tt
  | ev :: evs' => handle ev ;; run evs'
  end.

(** ** Example data *)

(** A stack of [nz] slices of 2 by 2 voxels holding 0, 1, 2, ... *)
Definition ramp (nz : nat) : np.ndarray spec_float :=
  np.mk np.float64 [nz; 2%nat; 2%nat]
    (List.map (fun k => np.of_Z np.float64 (Z.of_nat k)) (seq 0 (nz * 4))).

(** A slice of 2 by 2 voxels that all hold [c]. *)
Definition flat (c : Z) : np.ndarray spec_float :=
  np.mk np.float64 [2%nat; 2%nat] (repeat (np.of_Z np.float64 c) 4).

(** A slice of 2 by 2 voxels holding 0, 1, 2 and 3; its 1st percentile
    is 0.03 and its 99th is 2.97. *)
Definition steps : np.ndarray spec_float :=
  np.mk np.float64 [2%nat; 2%nat] (List.map (np.of_Z np.float64) [0; 1; 2; 3]).

Definition steps_p01 : spec_float := S754_finite false 8646911284551352 (-58).
Definition steps_p99 : spec_float := S754_finite false 6687845446645186 (-51).

(** The same slice with the dtype float32. *)
Definition steps32 : np.ndarray spec_float :=
  np.mk np.float32 [2%nat; 2%nat] (List.map (np.of_Z np.float32) [0; 1; 2; 3]).



(** ** Vocabulary of the statements *)

(** All the points of a canvas, foreground first. *)
Definition all_points (self : ImageLabel) : list QPoint.t :=
  points_foreground self ++ points_background self.

(** The distance [remove_point] measures. *)
Definition distance (pos point : QPoint.t) : Z :=
  QPoint.manhattanLength (QPoint.sub point pos).

(** The events that set the annotation mode. *)
Definition is_mode_toggle (ev : event) : bool :=
  match ev with
  | ForegroundAction | BackgroundAction => true
  | _ => false
  end.

(** An array [show_mrc_slice] can display a slice of: three dimensions,
    the last two not empty. *)
Definition is_stack (a : np.ndarray spec_float) : bool :=
  match np.shape a with
  | [_; height; width] => negb (height =? 0)%nat && negb (width =? 0)%nat
  | _ => false
  end.

(** [len(a)] of an array with at least one dimension. *)
Definition depth (a : np.ndarray spec_float) : Z :=
  match np.shape a with
  | n :: _ => Z.of_nat n
  | [] => 0
  end.

(** The annotation mode and the two point lists of the canvas of a
    window. *)
Definition mode_of (w : MainWindow) : mode := current_mode (image_label w).

Definition points_of (w : MainWindow) : list QPoint.t * list QPoint.t :=
  (points_foreground (image_label w), points_background (image_label w)).

(** [invariant P c]: if [P] holds of the window before [c], it holds of
    the window [c] leaves, whether [c] returns or raises. *)
Definition invariant {A : Type} (P : MainWindow -> Prop) (c : method A) : Prop :=
  forall w, P w -> P (snd (c w)).








(** The value [show_mrc_slice] computes for a voxel [v] before the
    conversion to 8 bits: [(clip(v, p01, p99) - p01) / (p99 - p01) * 255]
    at the precision of dtype [d]. *)
Definition stretched (d : np.dtype_t) (v p01 p99 : spec_float) : spec_float :=
  np.mul d (np.div d (np.sub d (np.clip1 v p01 p99) p01) (np.sub d p99 p01)) (np.of_Z d 255).

(** The annotation mode after an event, from the mode before it. *)
Definition mode_after (m : mode) (ev : event) : mode :=
  match ev with
  | ForegroundAction => foreground
  | BackgroundAction => background
  | _ => m
  end.

(** The check marks of the two mode actions show the mode of the
    canvas. *)
Definition actions_agree (w : MainWindow) : Prop :=
  foreground_action w = (match mode_of w with foreground => true | background => false end)
  /\ background_action w = negb (foreground_action w).

(** A slice selector as the program sets it up: connected, starting at
    0, its value inside its range. *)
Definition selector_ok (w : MainWindow) : Prop :=
  match slice_selector w with
  | None => True
  | Some sb => connected sb = true /\ minimum sb = 0 /\ 0 <= value sb <= maximum sb
  end.

(** The character [c] occurs in [s]. *)
Fixpoint occurs (c : ascii) (s : string) : bool :=
  match s with
  | EmptyString => false
  | String a s' => Ascii.eqb a c || occurs c s'
  end.

(** The path [save_points] builds from the name of the loaded file (its
    lines 232 to 235). *)
Definition save_path_of (filename : string) : string :=
  let base_filename := fst (os_path.splitext (os_path.basename filename)) in
  let base_filename := if String.eqb base_filename ""%string then "image"%string else base_filename in
  os_path.join "input_points"%string (base_filename ++ "_points.npz")%string.

(** Reading back the array [points] of an archive: its rows as points. *)
Fixpoint points_of_rows (data : list Z) : list QPoint.t :=
  match data with
  | x :: y :: rest => QPoint.mk x y :: points_of_rows rest
  | _ => []
  end.

(** The points of an archive that carry a given label. *)
Definition labelled (label : Z) (archive : npz) : list QPoint.t :=
  List.map fst
    (filter (fun pl => snd pl =? label)
       (combine (points_of_rows (np.data (npz_points archive)))
          (np.data (npz_labels archive)))).

(** * Properties *)

(** ** Removing a point *)

Lemma QPoint_eqb_eq (p q : QPoint.t) : QPoint.eqb p q = true <-> p = q.
Proof.
  destruct p as [px py], q as [qx qy]; unfold QPoint.eqb; simpl.
  rewrite andb_true_iff, !Z.eqb_eq. split.
  - intros [-> ->]; reflexivity.
  - intros H; inversion H; auto.
Qed.

Lemma QPoint_eqb_refl (p : QPoint.t) : QPoint.eqb p p = true.
Proof. apply QPoint_eqb_eq; reflexivity. Qed.

(** [list.remove] takes out the first occurrence. *)
Lemma list_remove_first (p : QPoint.t) (l1 l2 : list QPoint.t) :
  ~ In p l1 -> list_remove p (l1 ++ p :: l2) = l1 ++ l2.
Proof.
  induction l1 as [|q l1 IH]; simpl; intros Hn.
  - rewrite QPoint_eqb_refl; reflexivity.
  - destruct (QPoint.eqb q p) eqn:E.
    + apply QPoint_eqb_eq in E. subst q. exfalso; apply Hn; left; reflexivity.
    + rewrite IH; [reflexivity | intros Hin; apply Hn; right; exact Hin].
Qed.

Lemma list_remove_length (p : QPoint.t) (l : list QPoint.t) :
  (Datatypes.length l <= S (Datatypes.length (list_remove p l)))%nat.
Proof.
  induction l as [|q l IH]; simpl; [lia|].
  destruct (QPoint.eqb q p); simpl; lia.
Qed.

(** The loop stops at the first point within the radius. *)
Lemma remove_in_first (radius : Z) (pos : QPoint.t) (whole l1 l2 : list QPoint.t) (p : QPoint.t) :
  Forall (fun q => within radius pos q = false) l1 ->
  within radius pos p = true ->
  remove_in radius pos whole (l1 ++ p :: l2) = Some (list_remove p whole).
Proof.
  intros Hfar Hnear. induction Hfar as [|q l1 Hq _ IH]; simpl.
  - rewrite Hnear; reflexivity.
  - rewrite Hq; exact IH.
Qed.

Lemma remove_in_none (radius : Z) (pos : QPoint.t) (whole l : list QPoint.t) :
  Forall (fun q => within radius pos q = false) l ->
  remove_in radius pos whole l = None.
Proof.
  intros Hfar. induction Hfar as [|q l Hq _ IH]; simpl; [reflexivity|].
  rewrite Hq; exact IH.
Qed.

(** Every list splits at its first point within the radius, if any. *)
Lemma first_within (radius : Z) (pos : QPoint.t) (l : list QPoint.t) :
  Forall (fun q => within radius pos q = false) l
  \/ exists l1 p l2, l = l1 ++ p :: l2
       /\ Forall (fun q => within radius pos q = false) l1
       /\ within radius pos p = true.
Proof.
  induction l as [|q l IH].
  - left; constructor.
  - destruct (within radius pos q) eqn:E.
    + right. exists [], q, l. repeat split; auto.
    + destruct IH as [IH | (l1 & p & l2 & -> & Hfar & Hnear)].
      * left; constructor; assumption.
      * right. exists (q :: l1), p, l2. repeat split; auto.
Qed.

(** The point the loop removes is one it has read from the list, so
    [list.remove] finds it. *)
Lemma remove_in_member (radius : Z) (pos : QPoint.t) (whole rest l : list QPoint.t) :
  incl rest whole ->
  remove_in radius pos whole rest = Some l ->
  exists p, In p whole /\ within radius pos p = true /\ l = list_remove p whole.
Proof.
  induction rest as [|q rest IH]; simpl; intros Hincl H; [discriminate|].
  destruct (within radius pos q) eqn:E.
  - inversion H; subst. exists q. repeat split; auto. apply Hincl; left; reflexivity.
  - apply IH; auto. intros x Hx; apply Hincl; right; exact Hx.
Qed.

Lemma remove_in_split (radius : Z) (pos : QPoint.t) (l1 l2 : list QPoint.t) (p : QPoint.t) :
  Forall (fun q => within radius pos q = false) l1 ->
  within radius pos p = true ->
  remove_in radius pos (l1 ++ p :: l2) (l1 ++ p :: l2) = Some (l1 ++ l2).
Proof.
  intros Hfar Hnear. rewrite (remove_in_first radius pos _ l1 l2 p Hfar Hnear).
  rewrite list_remove_first; [reflexivity|].
  intros Hin. rewrite Forall_forall in Hfar. specialize (Hfar p Hin). congruence.
Qed.

(** [remove_point] removes at most one point. *)
Lemma remove_point_length (pos : QPoint.t) (self : ImageLabel) :
  (Datatypes.length (all_points self)
   <= S (Datatypes.length (all_points (remove_point pos self))))%nat.
Proof.
  unfold remove_point, all_points.
  destruct (remove_in _ pos (points_foreground self) (points_foreground self)) as [l|] eqn:Ef.
  - apply remove_in_member in Ef; [|apply incl_refl].
    destruct Ef as (p & _ & _ & ->). simpl. rewrite !length_app.
    pose proof (list_remove_length p (points_foreground self)). lia.
  - destruct (remove_in _ pos (points_background self) (points_background self)) as [l|] eqn:Eb.
    + apply remove_in_member in Eb; [|apply incl_refl].
      destruct Eb as (p & _ & _ & ->). simpl. rewrite !length_app.
      pose proof (list_remove_length p (points_background self)). lia.
    + lia.
Qed.

(** C3, as the code has it: [remove_point] removes at most one point;
    it changes nothing when no stored point lies within Manhattan
    distance [point_size + 2] of the position; otherwise it removes the
    first point within that distance in list order, the foreground list
    being searched before the background list (the first match, which
    need not be the nearest). *)
Theorem remove_point_first_match (self : ImageLabel) (pos : QPoint.t) :
  let radius := point_size self + 2 in
  let far := fun q => within radius pos q = false in
  (Forall far (all_points self) -> remove_point pos self = self)
  /\ (forall l1 p l2,
         points_foreground self = l1 ++ p :: l2 ->
         Forall far l1 -> within radius pos p = true ->
         remove_point pos self = set_points_foreground (l1 ++ l2) self)
  /\ (forall l1 p l2,
         Forall far (points_foreground self) ->
         points_background self = l1 ++ p :: l2 ->
         Forall far l1 -> within radius pos p = true ->
         remove_point pos self = set_points_background (l1 ++ l2) self)
  /\ (Datatypes.length (all_points self)
      <= S (Datatypes.length (all_points (remove_point pos self))))%nat.
Proof.
  intros radius far. unfold remove_point. fold radius.
  repeat split.
  - unfold all_points. intros H. apply Forall_app in H. destruct H as [Hf Hb].
    rewrite (remove_in_none _ _ _ _ Hf), (remove_in_none _ _ _ _ Hb). reflexivity.
  - intros l1 p l2 E Hfar Hnear. rewrite E.
    rewrite (remove_in_split _ _ _ _ _ Hfar Hnear). reflexivity.
  - intros l1 p l2 Hf E Hfar Hnear.
    rewrite (remove_in_none _ _ _ _ Hf). rewrite E.
    rewrite (remove_in_split _ _ _ _ _ Hfar Hnear). reflexivity.
  - apply remove_point_length.
Qed.

(** The three cases of [remove_point_first_match] on canvases with
    points at (3,0) and (0,0), for a right click at (0,0) or far away. *)
Lemma remove_point_first_match_witness :
  remove_point (QPoint.mk 100 100)
    (mkImageLabel [QPoint.mk 3 0] [QPoint.mk 0 0] foreground NullPixmap 5)
  = mkImageLabel [QPoint.mk 3 0] [QPoint.mk 0 0] foreground NullPixmap 5
  /\ remove_point (QPoint.mk 0 0)
       (mkImageLabel [QPoint.mk 50 0; QPoint.mk 3 0; QPoint.mk 0 0] [QPoint.mk 0 0]
          foreground NullPixmap 5)
     = mkImageLabel [QPoint.mk 50 0; QPoint.mk 0 0] [QPoint.mk 0 0] foreground NullPixmap 5
  /\ remove_point (QPoint.mk 0 0)
       (mkImageLabel [QPoint.mk 50 0] [QPoint.mk 3 0; QPoint.mk 0 0] foreground NullPixmap 5)
     = mkImageLabel [QPoint.mk 50 0] [QPoint.mk 0 0] foreground NullPixmap 5.
Proof.
  split; [|split].
  - apply (proj1 (remove_point_first_match
      (mkImageLabel [QPoint.mk 3 0] [QPoint.mk 0 0] foreground NullPixmap 5)
      (QPoint.mk 100 100))).
    repeat constructor.
  - apply (proj1 (proj2 (remove_point_first_match
      (mkImageLabel [QPoint.mk 50 0; QPoint.mk 3 0; QPoint.mk 0 0] [QPoint.mk 0 0]
         foreground NullPixmap 5)
      (QPoint.mk 0 0))) [QPoint.mk 50 0] (QPoint.mk 3 0) [QPoint.mk 0 0]).
    + reflexivity.
    + repeat constructor.
    + reflexivity.
  - apply (proj1 (proj2 (proj2 (remove_point_first_match
      (mkImageLabel [QPoint.mk 50 0] [QPoint.mk 3 0; QPoint.mk 0 0] foreground NullPixmap 5)
      (QPoint.mk 0 0)))) [] (QPoint.mk 3 0) [QPoint.mk 0 0]).
    + repeat constructor.
    + reflexivity.
    + constructor.
    + reflexivity.
Defined.

(** C3 as the specification words it fails: the point removed is not
    always a nearest one.  With foreground points (3,0) and (0,0) and a
    right click at (0,0), the point at distance 3 is removed and the
    point under the cursor stays. *)
Lemma remove_point_not_nearest :
  ~ (forall (self : ImageLabel) (pos p q : QPoint.t),
        In p (all_points self) ->
        ~ In p (all_points (remove_point pos self)) ->
        In q (all_points self) ->
        distance pos p <= distance pos q).
Proof.
  intros H.
  specialize (H (mkImageLabel [QPoint.mk 3 0; QPoint.mk 0 0] [] foreground NullPixmap 5)
                (QPoint.mk 0 0) (QPoint.mk 3 0) (QPoint.mk 0 0)).
  assert (Hd : distance (QPoint.mk 0 0) (QPoint.mk 3 0)
               <= distance (QPoint.mk 0 0) (QPoint.mk 0 0)).
  { apply H.
    - left; reflexivity.
    - cbv. intros [E | []]. discriminate E.
    - right; left; reflexivity. }
  cbv in Hd. apply Hd. reflexivity.
Qed.

(** ** Reasoning about methods *)

Section Invariants.
Context {A B : Type} (P : MainWindow -> Prop).

Lemma invariant_ret (a : A) : invariant P (ret a).
Proof. intros w H; exact H. Qed.

Lemma invariant_raise (e : exn) : invariant P (@raise A e).
Proof. intros w H; exact H. Qed.

Lemma invariant_eval (r : result A) : invariant P (eval r).
Proof. intros w H; exact H. Qed.

Lemma invariant_self : invariant P self.
Proof. intros w H; exact H. Qed.

Lemma invariant_assign (f : MainWindow -> MainWindow) :
  (forall w, P w -> P (f w)) -> invariant P (assign f).
Proof. intros Hf w H; apply Hf; exact H. Qed.

Lemma invariant_bind (c : method A) (k : A -> method B) :
  invariant P c -> (forall a, invariant P (k a)) -> invariant P (bind c k).
Proof.
  intros Hc Hk w H. unfold bind. specialize (Hc w H).
  destruct (c w) as [[a|e] w']; simpl in *.
  - apply Hk; exact Hc.
  - exact Hc.
Qed.

Lemma invariant_try_except (body : method unit) (handler : exn -> method unit) :
  invariant P body -> (forall e, invariant P (handler e)) ->
  invariant P (try_except body handler).
Proof.
  intros Hb Hh w H. unfold try_except. specialize (Hb w H).
  destruct (body w) as [[a|e] w']; simpl in *.
  - exact Hb.
  - apply Hh; exact Hb.
Qed.

End Invariants.

(** The steps of a proof that a method keeps an invariant: follow the
    structure of the method, and look at the assignments. *)
Ltac invariant_step :=
  lazymatch goal with
  | |- invariant _ (match ?x with _ => _ end) => destruct x
  | |- invariant _ (ret _) => apply invariant_ret
  | |- invariant _ (raise _) => apply invariant_raise
  | |- invariant _ (eval _) => apply invariant_eval
  | |- invariant _ self => apply invariant_self
  | |- invariant _ (bind _ _) => apply invariant_bind; [|intros ?]
  | |- invariant _ (try_except _ _) => apply invariant_try_except; [|intros ?]
  | |- invariant _ (assign _) => apply invariant_assign; intros ? ?; cbv beta
  end.

Ltac invariant_auto := repeat invariant_step.

(** The same, with the lemmas of the methods called on the way. *)
Ltac invariant_with leaf := repeat first [leaf | invariant_step].

(** What a successful sequence went through. *)
Lemma bind_ok {A B : Type} (c : method A) (k : A -> method B) (w : MainWindow) (b : B) :
  fst (bind c k w) = Ok b ->
  exists a w', c w = (Ok a, w') /\ bind c k w = k a w'.
Proof.
  unfold bind. destruct (c w) as [[a|e] w']; simpl; intros H.
  - exists a, w'. split; reflexivity.
  - discriminate.
Qed.

(** *** The canvas attributes each method leaves alone *)

(** The methods that display a slice keep every property of the window
    that holds again after the three assignments they make: a new image
    on the canvas, the slice index, the slice selector. *)
Section SliceMethods.
Variable P : MainWindow -> Prop.
Hypothesis P_set_mrc_image : forall w pixmap max_size,
  P w -> P (set_image_label (set_mrc_image pixmap max_size (image_label w)) w).
Hypothesis P_set_current_slice : forall w v, P w -> P (set_current_slice v w).
Hypothesis P_set_slice_selector : forall w s, P w -> P (set_slice_selector s w).
Hypothesis P_set_mrc_data : forall w a, P w -> P (set_mrc_data a w).
Hypothesis P_set_mrc_filename : forall w f, P w -> P (set_mrc_filename f w).
Hypothesis P_set_total_slices : forall w v, P w -> P (set_total_slices v w).
Hypothesis P_show_message_box : forall w b, P w -> P (show_message_box b w).

Lemma show_mrc_slice_invariant (slice_index : Z) : invariant P (show_mrc_slice slice_index).
Proof. unfold show_mrc_slice. invariant_auto; auto. Qed.

Lemma slice_changed_invariant (v : Z) : invariant P (slice_changed v).
Proof.
  unfold slice_changed.
  apply invariant_bind; [apply invariant_assign; auto | intros _].
  apply invariant_bind; [apply invariant_self | intros w].
  apply show_mrc_slice_invariant.
Qed.

Lemma on_slice_selector_invariant (f : QSpinBox -> QSpinBox * option Z) :
  invariant P (on_slice_selector f).
Proof.
  unfold on_slice_selector.
  apply invariant_bind; [apply invariant_self | intros w].
  destruct (slice_selector w) as [sb|]; [|apply invariant_raise].
  destruct (f sb) as [sb' emitted].
  apply invariant_bind; [apply invariant_assign; auto | intros _].
  destruct emitted as [v|]; [|apply invariant_ret].
  destruct (connected sb'); [apply slice_changed_invariant | apply invariant_ret].
Qed.

Lemma create_slice_selector_invariant : invariant P create_slice_selector.
Proof.
  unfold create_slice_selector.
  apply invariant_bind; [apply invariant_self | intros w].
  destruct (slice_selector w) as [sb|]; [apply on_slice_selector_invariant|].
  repeat (apply invariant_bind;
          [first [apply on_slice_selector_invariant | apply invariant_assign; auto]
          | intros _]).
  apply on_slice_selector_invariant.
Qed.

Lemma open_mrc_file_invariant (filename : string) (mrc : result (np.ndarray spec_float)) :
  invariant P (open_mrc_file filename mrc).
Proof.
  unfold open_mrc_file.
  invariant_with
    ltac:(first [apply create_slice_selector_invariant | apply show_mrc_slice_invariant]);
    auto.
Qed.

Lemma open_image_invariant (filename : string) (mrc : result (np.ndarray spec_float)) :
  (forall w image_path max_size,
      P w -> P (set_image_label (set_image image_path max_size (image_label w)) w)) ->
  invariant P (open_image filename mrc).
Proof.
  intros P_set_image. unfold open_image.
  destruct (String.eqb filename ""); [apply invariant_ret|].
  destruct (String.eqb _ ".mrc"); [apply open_mrc_file_invariant|].
  invariant_auto; auto.
Qed.

Lemma slice_selector_event_invariant (v : Z) : invariant P (handle (SliceSelector v)).
Proof.
  cbn [handle].
  apply invariant_bind; [apply invariant_self | intros w].
  destruct (slice_selector w); [apply on_slice_selector_invariant | apply invariant_ret].
Qed.

End SliceMethods.

Lemma save_points_mode (m : mode) (fs : filesystem) :
  invariant (fun w => mode_of w = m) (save_points fs).
Proof.
  unfold save_points. invariant_auto; assumption.
Qed.

Lemma remove_point_mode (pos : QPoint.t) (self : ImageLabel) :
  current_mode (remove_point pos self) = current_mode self.
Proof.
  unfold remove_point.
  destruct (remove_in _ _ (points_foreground self) _); [reflexivity|].
  destruct (remove_in _ _ (points_background self) _); reflexivity.
Qed.

Lemma mousePressEvent_mode (b : button) (pos : QPoint.t) (self : ImageLabel) :
  current_mode (mousePressEvent b pos self) = current_mode self.
Proof.
  destruct b; simpl.
  - destruct (current_mode self) eqn:E; simpl; congruence.
  - apply remove_point_mode.
  - reflexivity.
Qed.

(** Only the two mode actions change the annotation mode. *)
Lemma handle_mode (m : mode) (ev : event) :
  is_mode_toggle ev = false -> invariant (fun w => mode_of w = m) (handle ev).
Proof.
  destruct ev; simpl; intros Ht; try discriminate.
  - apply invariant_assign. intros w H. unfold mode_of in *. simpl.
    rewrite mousePressEvent_mode. exact H.
  - apply open_image_invariant; intros; assumption.
  - apply slice_selector_event_invariant; intros; assumption.
  - unfold clear_points. invariant_auto; assumption.
  - apply save_points_mode.
Qed.

Lemma run_mode (m : mode) (evs : list event) :
  existsb is_mode_toggle evs = false ->
  invariant (fun w => mode_of w = m) (run evs).
Proof.
  induction evs as [|ev evs IH]; simpl; intros Hn.
  - apply invariant_ret.
  - apply orb_false_iff in Hn. destruct Hn as [H1 H2].
    apply invariant_bind; [apply handle_mode; exact H1 | intros _; apply IH; exact H2].
Qed.

(** ** The annotation mode *)

(** C10: the canvas starts in foreground mode, and as long as neither
    mode action has been triggered, whatever else has happened, a left
    click appends its position to the foreground list and leaves the
    background list as it is. *)
Theorem initial_mode_is_foreground (toolbar : Z) (evs : list event) (pos : QPoint.t) :
  existsb is_mode_toggle evs = false ->
  let w := snd (run evs (MainWindow_init toolbar)) in
  let w' := snd (handle (MousePress LeftButton pos) w) in
  mode_of w = foreground
  /\ points_foreground (image_label w') = points_foreground (image_label w) ++ [pos]
  /\ points_background (image_label w') = points_background (image_label w).
Proof.
  intros Hn w w'.
  assert (Hm : mode_of w = foreground).
  { apply (run_mode foreground evs Hn). reflexivity. }
  split; [exact Hm|].
  subst w'. unfold mode_of in Hm. simpl. rewrite Hm. simpl. split; reflexivity.
Qed.

(** A session that opens a stack, clicks, clears and saves before the
    click under study. *)
Lemma initial_mode_is_foreground_witness :
  let evs := [OpenAction "stack.mrc" (Ok (ramp 3));
              MousePress LeftButton (QPoint.mk 1 1);
              MousePress RightButton (QPoint.mk 40 40);
              ClearAction;
              MousePress LeftButton (QPoint.mk 2 2);
              SaveAction (mk_filesystem true (Ok tt) (Ok tt))] in
  let w := snd (run evs (MainWindow_init 30)) in
  let w' := snd (handle (MousePress LeftButton (QPoint.mk 7 8)) w) in
  mode_of w = foreground
  /\ points_foreground (image_label w') = points_foreground (image_label w) ++ [QPoint.mk 7 8]
  /\ points_background (image_label w') = points_background (image_label w).
Proof.
  intros evs. apply (initial_mode_is_foreground 30 evs (QPoint.mk 7 8)).
  reflexivity.
Defined.

(** ** Clicks without a raster *)

(** C9, as the code has it: [mousePressEvent] does not look at the
    image.  With no raster loaded a left click still appends its
    position to the list of the current mode, a right click still
    removes the first stored point within reach, and only the other
    buttons change nothing; no click loads a raster. *)
Theorem click_without_raster (b : button) (pos : QPoint.t) (self : ImageLabel) :
  image self = NullPixmap ->
  let self' := mousePressEvent b pos self in
  image self' = NullPixmap
  /\ match b with
     | LeftButton =>
         match current_mode self with
         | foreground =>
             points_foreground self' = points_foreground self ++ [pos]
             /\ points_background self' = points_background self
         | background =>
             points_foreground self' = points_foreground self
             /\ points_background self' = points_background self ++ [pos]
         end
     | RightButton => self' = remove_point pos self
     | OtherButton => self' = self
     end.
Proof.
  intros Hnull self'. subst self'. destruct b; simpl.
  - destruct (current_mode self); simpl; auto.
  - split; [|reflexivity]. unfold remove_point.
    destruct (remove_in _ _ (points_foreground self) _); [exact Hnull|].
    destruct (remove_in _ _ (points_background self) _); exact Hnull.
  - auto.
Qed.

(** A left click on the canvas as [__init__] leaves it. *)
Lemma click_without_raster_witness :
  image (mousePressEvent LeftButton (QPoint.mk 1 1) ImageLabel_init) = NullPixmap
  /\ points_foreground (mousePressEvent LeftButton (QPoint.mk 1 1) ImageLabel_init)
     = [QPoint.mk 1 1]
  /\ points_background (mousePressEvent LeftButton (QPoint.mk 1 1) ImageLabel_init) = [].
Proof.
  exact (click_without_raster LeftButton (QPoint.mk 1 1) ImageLabel_init eq_refl).
Defined.

(** C9 as the specification words it fails: a click with no raster
    loaded is not always without effect.  On the canvas of a fresh
    window, a left click at (1,1) adds that point. *)
Lemma click_without_raster_adds_point :
  ~ (forall (b : button) (pos : QPoint.t) (self : ImageLabel),
        image self = NullPixmap ->
        points_foreground (mousePressEvent b pos self) = points_foreground self
        /\ points_background (mousePressEvent b pos self) = points_background self).
Proof.
  intros H.
  destruct (H LeftButton (QPoint.mk 1 1) ImageLabel_init eq_refl) as [Hf _].
  discriminate Hf.
Qed.

(** ** Saving the points *)

(** The path [save_points] writes to. *)
Lemma save_path_of_flat_image :
  os_path.join "input_points"
    ((if String.eqb (fst (os_path.splitext (os_path.basename ""))) ""
      then "image" else fst (os_path.splitext (os_path.basename ""))) ++ "_points.npz")
  = "input_points/image_points.npz"%string.
Proof. reflexivity. Qed.

(** When both lists hold a point, the archive is the one the
    specification describes: the coordinates of the foreground points
    then those of the background points, one row each, and as many ones
    as foreground points followed by as many zeros as background
    points. *)
Lemma save_points_both_nonempty (fs : filesystem) (w : MainWindow) :
  points_foreground (image_label w) <> [] ->
  points_background (image_label w) <> [] ->
  (path_exists fs = true \/ makedirs fs = Ok tt) ->
  savez fs = Ok tt ->
  let M := Datatypes.length (points_foreground (image_label w)) in
  let K := Datatypes.length (points_background (image_label w)) in
  exists save_path,
    fst (save_points fs w) = Ok tt
    /\ files (snd (save_points fs w))
       = (save_path,
          mk_npz (mrc_filename w)
            (np.mk np.int64 [(M + K)%nat; 2%nat]
               (List.concat (rows (points_foreground (image_label w)
                                   ++ points_background (image_label w)))))
            (np.mk np.int64 [(M + K)%nat] (repeat 1 M ++ repeat 0 K)))
         :: files w.
Proof.
  intros Hf Hb Hdir Hsave M K. subst M K.
  destruct (points_foreground (image_label w)) as [|p lf] eqn:Ef; [contradiction|].
  destruct (points_background (image_label w)) as [|q lb] eqn:Eb; [contradiction|].
  eexists. unfold save_points, bind, try_except.
  assert (Hd : (if path_exists fs then ret tt else eval (makedirs fs)) w = (Ok tt, w)).
  { destruct Hdir as [-> | Hm].
    - reflexivity.
    - destruct (path_exists fs); [reflexivity|]. unfold eval. rewrite Hm. reflexivity. }
  rewrite Hd. unfold self. rewrite Ef, Eb. simpl. rewrite Hsave. simpl.
  unfold rows. rewrite !map_app, !concat_app, !length_map. simpl.
  split; reflexivity.
Qed.

(** C1 on the code: an empty list makes [np.array] return an array of
    shape (0,), not (0,2).  With no point at all the call succeeds, but
    the archive holds points of shape (2,0) and of dtype float64; with
    one foreground point and no background point [np.vstack] raises
    [ValueError] and nothing is written. *)
Theorem save_points_empty_list :
  let fs := mk_filesystem true (Ok tt) (Ok tt) in
  let w0 := MainWindow_init 30 in
  let w1 := snd (handle (MousePress LeftButton (QPoint.mk 3 4)) w0) in
  save_points fs w0
  = (Ok tt,
     show_message_box (information_saved "input_points/image_points.npz")
       (write_file "input_points/image_points.npz"
          (mk_npz "" (np.mk np.float64 [2%nat; 0%nat] []) (np.mk np.int64 [0%nat] []))
          w0))
  /\ points_foreground (image_label w1) = [QPoint.mk 3 4]
  /\ points_background (image_label w1) = []
  /\ save_points fs w1 = (Raise ValueError, w1).
Proof. repeat split. Qed.

(** C7 on the code: [os.makedirs] is called before the [try] of
    [save_points].  When the directory is missing and cannot be
    created, the exception leaves the method: no notice is shown and
    the window is as before the call. *)
Theorem save_points_makedirs_escapes (w : MainWindow) (e : exn) (write : result unit) :
  save_points (mk_filesystem false (Raise e) write) w = (Raise e, w).
Proof. reflexivity. Qed.

(** The sibling failure, of [np.savez], is caught and shown. *)
Lemma save_points_savez_caught (w : MainWindow) (e : exn) :
  points_foreground (image_label w) <> [] ->
  points_background (image_label w) <> [] ->
  save_points (mk_filesystem true (Ok tt) (Raise e)) w
  = (Ok tt, show_message_box (critical_save e) w).
Proof.
  intros Hf Hb.
  destruct (points_foreground (image_label w)) as [|p lf] eqn:Ef; [contradiction|].
  destruct (points_background (image_label w)) as [|q lb] eqn:Eb; [contradiction|].
  unfold save_points, bind, try_except, self. simpl. rewrite Ef, Eb. reflexivity.
Qed.

(** ** Rendering a slice *)



(** The shape and the elements of the normalized array. *)
Lemma normalize_shape (slice_data : np.ndarray spec_float) (p01 p99 : spec_float) :
  np.shape (normalize slice_data p01 p99) = np.shape slice_data.
Proof. reflexivity. Qed.

Lemma normalize_data (slice_data : np.ndarray spec_float) (p01 p99 : spec_float) :
  np.data (normalize slice_data p01 p99)
  = List.map
      (fun v => stretched np.float64 (np.to_float64 (np.dtype slice_data) v) p01 p99)
      (np.data slice_data).
Proof.
  unfold normalize, np.clip, np.map, np.astype_float64. cbn [np.data].
  rewrite !map_map. reflexivity.
Qed.

(** [render_slice] fails only through the percentiles or the unpacking
    of the shape. *)
Lemma render_slice_2d (slice_data : np.ndarray spec_float) (p01 p99 : spec_float)
  (height width : nat) :
  np.shape slice_data = [height; width] ->
  np.percentile slice_data 1 99 = Ok (p01, p99) ->
  render_slice slice_data
  = Ok (mkQImage
          (List.map
             (fun v => np.to_uint8
                         (stretched np.float64 (np.to_float64 (np.dtype slice_data) v) p01 p99))
             (np.data slice_data))
          width height width).
Proof.
  intros Hs Hp. unfold render_slice. rewrite Hp.
  unfold result_bind. cbn [fst snd]. rewrite normalize_shape, Hs.
  unfold np.astype_uint8. cbn [np.data]. rewrite normalize_data, map_map.
  reflexivity.
Qed.

(** The slice 0, 1, 2, 3: its pixels, and the normalized value
    170.86... of the voxel 2, whose pixel is 170 and not 171. *)
Example render_slice_steps :
  render_slice steps = Ok (mkQImage [Some 0; Some 84; Some 170; Some 255] 2 2 2)
  /\ stretched np.float64 (np.of_Z np.float64 2) steps_p01 steps_p99
     = S754_finite false 6011860312525427 (-45)
  /\ 170 * 2 ^ 45 <= 6011860312525427 < 171 * 2 ^ 45
  /\ 2 * 6011860312525427 > (170 + 171) * 2 ^ 45.
Proof.
  split; [vm_compute; reflexivity|].
  split; [vm_compute; reflexivity|].
  lia.
Qed.

(** ** The flat slice *)

Lemma SFltb_irrefl (c : spec_float) : SFltb c c = false.
Proof.
  unfold SFltb, SFcompare.
  destruct c as [s|s| |s m e]; try reflexivity.
  - destruct s; reflexivity.
  - rewrite Z.compare_refl, Pos.compare_cont_refl. destruct s; reflexivity.
Qed.

Lemma SFcompare_antisym (a b : spec_float) :
  SFcompare b a = option_map CompOpp (SFcompare a b).
Proof.
  destruct a as [sa|sa| |sa ma ea], b as [sb|sb| |sb mb eb]; simpl;
    try reflexivity;
    try (destruct sa; reflexivity); try (destruct sb; reflexivity);
    try (destruct sa, sb; reflexivity).
  destruct sa, sb; simpl; try reflexivity.
  - rewrite (Z.compare_antisym ea eb).
    destruct (ea ?= eb); simpl; try reflexivity.
    pose proof (Pos.compare_cont_antisym ma mb Eq) as H. simpl in H.
    rewrite <- H. destruct (Pos.compare_cont Eq ma mb); reflexivity.
  - rewrite (Z.compare_antisym ea eb).
    destruct (ea ?= eb); simpl; try reflexivity.
    pose proof (Pos.compare_cont_antisym ma mb Eq) as H. simpl in H.
    rewrite <- H. destruct (Pos.compare_cont Eq ma mb); reflexivity.
Qed.

Lemma SFltb_asym (a b : spec_float) : SFltb a b = true -> SFltb b a = false.
Proof.
  unfold SFltb. rewrite (SFcompare_antisym a b).
  destruct (SFcompare a b) as [[| |]|]; simpl; congruence.
Qed.

(** Clipping to an interval reduced to one value gives that value,
    except for a NaN, which is kept. *)
Lemma clip1_degenerate (v c : spec_float) :
  np.clip1 v c c = if np.isnan v then v else c.
Proof.
  unfold np.clip1. destruct (np.isnan v) eqn:En; simpl.
  - rewrite En. reflexivity.
  - destruct (SFltb c v) eqn:E1.
    + rewrite En. simpl. rewrite (SFltb_asym c v E1). reflexivity.
    + destruct (np.isnan c) eqn:Ec; simpl; [reflexivity|].
      rewrite SFltb_irrefl. reflexivity.
Qed.

(** A value minus itself is a zero, or NaN. *)
Lemma sub_diag (d : np.dtype_t) (c : spec_float) :
  np.sub d c c = S754_zero false \/ np.sub d c c = S754_nan.
Proof.
  unfold np.sub, SFsub. destruct c as [s|s| |s m e].
  - left. destruct s; reflexivity.
  - right. destruct s; reflexivity.
  - right. reflexivity.
  - left. rewrite Z.min_id. unfold shl_align. rewrite !Z.sub_diag. reflexivity.
Qed.

(** With equal percentiles the normalization divides zero by zero:
    every value it computes is NaN, and no pixel is defined. *)
Lemma stretched_degenerate (d : np.dtype_t) (v c : spec_float) :
  stretched d v c c = S754_nan.
Proof.
  unfold stretched. rewrite clip1_degenerate.
  destruct (np.isnan v) eqn:En.
  - destruct v; try discriminate. unfold np.sub, np.div, np.mul. simpl.
    destruct c; reflexivity.
  - destruct (sub_diag d c) as [-> | ->]; reflexivity.
Qed.

Lemma render_slice_degenerate (slice_data : np.ndarray spec_float) (c : spec_float)
  (image : QImage) :
  np.percentile slice_data 1 99 = Ok (c, c) ->
  render_slice slice_data = Ok image ->
  Forall (fun v => v = S754_nan) (np.data (normalize slice_data c c))
  /\ Forall (fun pixel => pixel = None) (bits image).
Proof.
  intros Hp Hr. split.
  - rewrite normalize_data. apply Forall_map, Forall_forall. intros v _.
    apply stretched_degenerate.
  - destruct (np.shape slice_data) as [|height [|width [|]]] eqn:Es;
      try (unfold render_slice in Hr; rewrite Hp in Hr; unfold result_bind in Hr;
           rewrite normalize_shape, Es in Hr; discriminate).
    rewrite (render_slice_2d _ c c height width Es Hp) in Hr.
    inversion Hr; subst; clear Hr. cbn [bits].
    apply Forall_map, Forall_forall. intros v _.
    rewrite stretched_degenerate. reflexivity.
Qed.

(** C2 on the code: [show_mrc_slice] has no case for equal percentiles.
    On the slice whose four voxels hold 7, both percentiles are 7, the
    four normalized values are NaN, and the conversion to 8 bits of
    each of them is undefined. *)
Theorem render_slice_flat :
  np.percentile (flat 7) 1 99 = Ok (np.of_Z np.float64 7, np.of_Z np.float64 7)
  /\ np.data (normalize (flat 7) (np.of_Z np.float64 7) (np.of_Z np.float64 7))
     = [S754_nan; S754_nan; S754_nan; S754_nan]
  /\ render_slice (flat 7) = Ok (mkQImage [None; None; None; None] 2 2 2).
Proof. vm_compute. repeat split. Qed.

(** ** The error of the floating-point operations

    What the roundings of [SpecFloat] do to the real values of the
    numbers, for a format of at least 24 bits: bounds on the error of a
    subtraction, a division and a multiplication, the threshold of
    overflow, and the canonical form of the results.  They give what
    the statement on pixels needs: the percentiles are numbers of the
    format, and the normalized value of a voxel between them is finite
    and stays below 256. *)



















Section Rounding.
Variables prec emax : Z.
Hypothesis Hprec : 24 <= prec.
Hypothesis Hemax : prec < emax.






















(** ** Rounding to nearest, and when it overflows *)














(** ** The results are numbers of the format *)












(** ** The normalized value *)



End Rounding.

(** ** The pixels of a slice *)




























(** A float32 slice is normalized in float64: the slice 0, 1, 2, 3 has
    the percentiles and the pixels of its float64 twin. *)
Example render_slice_float32 :
  np.percentile steps32 1 99 = Ok (steps_p01, steps_p99)
  /\ List.map (np.to_float64 np.float32) (np.data steps32) = np.data steps
  /\ render_slice steps32 = Ok (mkQImage [Some 0; Some 84; Some 170; Some 255] 2 2 2).
Proof.
  split; [vm_compute; reflexivity|].
  split; [vm_compute; reflexivity|].
  vm_compute. reflexivity.
Qed.


(** ** Showing a slice *)

(** [show_mrc_slice] either raises and leaves the window as it is, or
    puts the image of the slice on the canvas, which resets the two
    point lists. *)
Lemma show_mrc_slice_unfold (slice_index : Z) (w : MainWindow) :
  show_mrc_slice slice_index w
  = match mrc_slice w slice_index with
    | Raise e => (Raise e, w)
    | Ok slice_data =>
        match render_slice slice_data with
        | Raise e => (Raise e, w)
        | Ok image =>
            (Ok tt,
             set_image_label
               (set_mrc_image (FromImage image) (Some (get_max_image_size w)) (image_label w))
               w)
        end
    end.
Proof.
  cbv [show_mrc_slice bind self eval assign].
  destruct (mrc_slice w slice_index) as [slice_data|e]; [|reflexivity].
  destruct (render_slice slice_data) as [image|e]; reflexivity.
Qed.

Lemma slice_changed_unfold (value : Z) (w : MainWindow) :
  slice_changed value w = show_mrc_slice value (set_current_slice value w).
Proof. reflexivity. Qed.

Lemma percentile_defined (a : np.ndarray spec_float) (q1 q2 : Z) :
  np.size (np.shape a) <> 0%nat ->
  exists p1 p2, np.percentile a q1 q2 = Ok (p1, p2).
Proof.
  intros Hn. unfold np.percentile.
  destruct (np.size (np.shape a) =? 0)%nat eqn:E.
  - apply Nat.eqb_eq in E. contradiction.
  - destruct (existsb np.isnan (np.data a)); eexists; eexists; reflexivity.
Qed.

(** Every slice of a stack can be rendered. *)
Lemma stack_slice (a : np.ndarray spec_float) (i : Z) :
  is_stack a = true -> 0 <= i < depth a ->
  exists slice_data image,
    np.getitem a i = Ok slice_data /\ render_slice slice_data = Ok image.
Proof.
  unfold is_stack, depth, np.getitem.
  destruct (np.shape a) as [|n [|height [|width [|]]]] eqn:Es; try discriminate.
  intros Hs Hi. apply andb_true_iff in Hs. destruct Hs as [Hh Hw].
  apply negb_true_iff, Nat.eqb_neq in Hh. apply negb_true_iff, Nat.eqb_neq in Hw.
  replace ((- Z.of_nat n <=? i) && (i <? Z.of_nat n)) with true
    by (symmetry; apply andb_true_iff; split; [apply Z.leb_le | apply Z.ltb_lt]; lia).
  eexists.
  match goal with |- exists image, Ok ?s = _ /\ _ => set (slice_data := s) end.
  destruct (percentile_defined slice_data 1 99) as (p01 & p99 & Hp).
  { subst slice_data. cbn [np.shape np.size fold_right]. nia. }
  eexists. split; [reflexivity|].
  apply (render_slice_2d slice_data p01 p99 height width); [reflexivity | exact Hp].
Qed.

(** Selecting a slice of the loaded stack by an index in range
    succeeds: it records the index and displays the slice, which
    empties the two point lists. *)
Lemma slice_changed_in_range (w : MainWindow) (a : np.ndarray spec_float) (value : Z) :
  mrc_data w = Some a -> is_stack a = true -> 0 <= value < depth a ->
  exists slice_data image,
    np.getitem a value = Ok slice_data
    /\ render_slice slice_data = Ok image
    /\ slice_changed value w
       = (Ok tt,
          set_image_label
            (set_mrc_image (FromImage image) (Some (get_max_image_size w)) (image_label w))
            (set_current_slice value w)).
Proof.
  intros Hd Hs Hi.
  destruct (stack_slice a value Hs Hi) as (slice_data & image & Hg & Hr).
  exists slice_data, image. split; [exact Hg|]. split; [exact Hr|].
  rewrite slice_changed_unfold, show_mrc_slice_unfold.
  unfold mrc_slice. cbn [mrc_data set_current_slice]. rewrite Hd, Hg, Hr. reflexivity.
Qed.

(** ** Loading a source *)

(** The methods that display a slice show no notice. *)
Lemma show_mrc_slice_message_boxes (slice_index : Z) (w : MainWindow) :
  message_boxes (snd (show_mrc_slice slice_index w)) = message_boxes w.
Proof.
  apply (show_mrc_slice_invariant (fun w' => message_boxes w' = message_boxes w));
    intros; assumption || reflexivity.
Qed.

Lemma create_slice_selector_message_boxes (w : MainWindow) :
  message_boxes (snd (create_slice_selector w)) = message_boxes w.
Proof.
  apply (create_slice_selector_invariant (fun w' => message_boxes w' = message_boxes w));
    intros; assumption || reflexivity.
Qed.

(** Once the canvas has no point, displaying slices gives it none. *)
Lemma create_slice_selector_no_points (w : MainWindow) :
  points_of w = ([], []) -> points_of (snd (create_slice_selector w)) = ([], []).
Proof.
  apply (create_slice_selector_invariant (fun w' => points_of w' = ([], [])));
    intros; assumption || reflexivity.
Qed.

(** A displayed slice leaves no point. *)
Lemma show_mrc_slice_ok (slice_index : Z) (w w' : MainWindow) :
  show_mrc_slice slice_index w = (Ok tt, w') ->
  points_of w' = ([], []) /\ message_boxes w' = message_boxes w.
Proof.
  rewrite show_mrc_slice_unfold.
  destruct (mrc_slice w slice_index) as [slice_data|e]; [|discriminate].
  destruct (render_slice slice_data) as [image|e]; [|discriminate].
  intros H; inversion H; subst. split; reflexivity.
Qed.

(** [open_mrc_file] never raises.  Either it shows the notice of a
    failure, or it shows nothing and leaves a canvas without points. *)
Lemma open_mrc_file_cases (filename : string) (mrc : result (np.ndarray spec_float))
  (w : MainWindow) :
  fst (open_mrc_file filename mrc w) = Ok tt
  /\ ((exists e, message_boxes (snd (open_mrc_file filename mrc w))
                 = critical_open e :: message_boxes w)
      \/ (message_boxes (snd (open_mrc_file filename mrc w)) = message_boxes w
          /\ points_of (snd (open_mrc_file filename mrc w)) = ([], []))).
Proof.
  cbv [open_mrc_file try_except bind eval assign self].
  destruct mrc as [data|e]; [|split; [reflexivity | left; exists e; reflexivity]].
  destruct (np.len data) as [n|e]; [|split; [reflexivity | left; exists e; reflexivity]].
  destruct (shape0 data) as [n0|e]; [|split; [reflexivity | left; exists e; reflexivity]].
  match goal with
  | |- context [show_mrc_slice ?i ?w3] =>
      pose proof (show_mrc_slice_message_boxes i w3) as Hm;
      pose proof (show_mrc_slice_ok i w3) as Hok;
      destruct (show_mrc_slice i w3) as [[[]|e] w4]
  end.
  - destruct (Hok w4 eq_refl) as [Hp _]. cbn [snd] in Hm.
    pose proof (create_slice_selector_message_boxes w4) as Hm'.
    pose proof (create_slice_selector_no_points w4 Hp) as Hp'.
    destruct (create_slice_selector w4) as [[[]|e] w5]; cbn [fst snd] in *.
    + split; [reflexivity|]. right. split; [rewrite Hm', Hm; reflexivity | exact Hp'].
    + split; [reflexivity|]. left. exists e. cbn. rewrite Hm', Hm. reflexivity.
  - cbn [snd] in Hm. split; [reflexivity|]. left. exists e. cbn. rewrite Hm. reflexivity.
Qed.

Lemma cons_neq {A : Type} (a : A) (l : list A) : a :: l <> l.
Proof.
  intros H. apply (f_equal (@Datatypes.length A)) in H. simpl in H. lia.
Qed.

(** C6: both ways of putting an image on the canvas, [set_image] for a
    flat image and [set_mrc_image] for a slice, leave the two point
    lists empty whatever they held; and so does every open action that
    loads the chosen file, that is, shows no notice of failure. *)
Theorem loading_resets_points :
  (forall (self : ImageLabel) (image_path : string) (pixmap : QPixmap)
          (max_size : option QSize.t),
      points_foreground (set_image image_path max_size self) = []
      /\ points_background (set_image image_path max_size self) = []
      /\ points_foreground (set_mrc_image pixmap max_size self) = []
      /\ points_background (set_mrc_image pixmap max_size self) = [])
  /\ (forall (w : MainWindow) (filename : string) (mrc : result (np.ndarray spec_float)),
         filename <> ""%string ->
         message_boxes (snd (open_image filename mrc w)) = message_boxes w ->
         points_foreground (image_label (snd (open_image filename mrc w))) = []
         /\ points_background (image_label (snd (open_image filename mrc w))) = []).
Proof.
  split.
  - intros. repeat split.
  - intros w filename mrc Hname Hboxes.
    assert (Hp : points_of (snd (open_image filename mrc w)) = ([], [])).
    { unfold open_image in *.
      destruct (String.eqb filename "") eqn:En.
      { apply String.eqb_eq in En. contradiction. }
      destruct (String.eqb _ ".mrc").
      - destruct (open_mrc_file_cases filename mrc w) as [_ [[e He] | [_ Hp]]].
        + rewrite He in Hboxes. apply cons_neq in Hboxes. contradiction.
        + exact Hp.
      - cbv [bind assign self]. destruct (slice_selector _); reflexivity. }
    unfold points_of in Hp. inversion Hp. split; reflexivity.
Qed.

(** Opening a stack over a canvas with points, and a flat image over a
    canvas with points. *)
Lemma loading_resets_points_witness :
  let w := snd (run [MousePress LeftButton (QPoint.mk 1 1);
                     BackgroundAction;
                     MousePress LeftButton (QPoint.mk 2 2)] (MainWindow_init 30)) in
  points_of w = ([QPoint.mk 1 1], [QPoint.mk 2 2])
  /\ (points_foreground (image_label (snd (open_image "stack.mrc" (Ok (ramp 3)) w))) = []
      /\ points_background (image_label (snd (open_image "stack.mrc" (Ok (ramp 3)) w))) = [])
  /\ (points_foreground (image_label (snd (open_image "cells.png" (Raise OSError) w))) = []
      /\ points_background (image_label (snd (open_image "cells.png" (Raise OSError) w))) = []).
Proof.
  intros w. split; [reflexivity|]. split.
  - apply (proj2 loading_resets_points w "stack.mrc"%string (Ok (ramp 3))).
    + discriminate.
    + vm_compute. reflexivity.
  - apply (proj2 loading_resets_points w "cells.png"%string (Raise OSError)).
    + discriminate.
    + vm_compute. reflexivity.
Defined.

(** ** What empties the point lists *)

Lemma save_points_points (fs : filesystem) (w : MainWindow) :
  points_of (snd (save_points fs w)) = points_of w.
Proof.
  assert (H : invariant (fun w' => points_of w' = points_of w) (save_points fs)).
  { unfold save_points. invariant_auto; assumption. }
  apply H. reflexivity.
Qed.

(** Opening a file and using the slice selector leave the point lists
    as they are or empty them. *)
Lemma open_or_select_points (ev : event) (w : MainWindow) :
  match ev with OpenAction _ _ | SliceSelector _ => True | _ => False end ->
  points_of (snd (handle ev w)) = points_of w
  \/ points_of (snd (handle ev w)) = ([], []).
Proof.
  intros Hev.
  assert (H : invariant (fun w' => points_of w' = points_of w \/ points_of w' = ([], []))
                (handle ev)).
  { destruct ev; try contradiction.
    - apply open_image_invariant; intros; try assumption; right; reflexivity.
    - apply slice_selector_event_invariant; intros; try assumption; right; reflexivity. }
  apply H. left. reflexivity.
Qed.

(** C4, as the code has it: selecting a slice displays it through
    [set_mrc_image], which resets the canvas.  For every loaded stack
    and index in range, [slice_changed] succeeds and leaves both point
    lists empty.  Of the other actions, the clear action empties both
    lists, opening a file and using the slice selector empty them or
    leave them as they are, a left click appends one point to one of
    them, a right click removes at most one point, and the mode actions,
    the save action and the other mouse buttons leave them as they
    are. *)
Theorem slice_selection_resets_points :
  (forall (w : MainWindow) (a : np.ndarray spec_float) (value : Z),
      mrc_data w = Some a -> is_stack a = true -> 0 <= value < depth a ->
      fst (slice_changed value w) = Ok tt
      /\ points_of (snd (slice_changed value w)) = ([], []))
  /\ (forall (w : MainWindow) (ev : event),
         let fg := points_foreground (image_label w) in
         let bg := points_background (image_label w) in
         let w' := snd (handle ev w) in
         match ev with
         | ClearAction => points_of w' = ([], [])
         | OpenAction _ _ | SliceSelector _ =>
             points_of w' = (fg, bg) \/ points_of w' = ([], [])
         | MousePress LeftButton pos =>
             points_of w' = (fg ++ [pos], bg) \/ points_of w' = (fg, bg ++ [pos])
         | MousePress RightButton _ =>
             (Datatypes.length (fg ++ bg)
              <= S (Datatypes.length (all_points (image_label w'))))%nat
         | MousePress OtherButton _ | ForegroundAction | BackgroundAction | SaveAction _ =>
             points_of w' = (fg, bg)
         end).
Proof.
  split.
  - intros w a value Hd Hs Hi.
    destruct (slice_changed_in_range w a value Hd Hs Hi) as (slice_data & image & _ & _ & E).
    rewrite E. split; reflexivity.
  - intros w ev fg bg w'. subst fg bg w'. destruct ev as [b pos|filename mrc|v| | | |fs].
    + destruct b.
      * cbn. unfold points_of. destruct (current_mode (image_label w)); cbn; auto.
      * cbn. apply (remove_point_length pos (image_label w)).
      * reflexivity.
    + apply (open_or_select_points (OpenAction filename mrc) w). exact I.
    + apply (open_or_select_points (SliceSelector v) w). exact I.
    + reflexivity.
    + reflexivity.
    + reflexivity.
    + apply (save_points_points fs w).
Qed.

(** A window with a stack of three slices and one point of each class,
    and the selection of its first slice. *)
Lemma slice_selection_resets_points_witness :
  let w := snd (run [OpenAction "stack.mrc" (Ok (ramp 3));
                     MousePress LeftButton (QPoint.mk 1 1);
                     BackgroundAction;
                     MousePress LeftButton (QPoint.mk 2 2)] (MainWindow_init 30)) in
  points_of w = ([QPoint.mk 1 1], [QPoint.mk 2 2])
  /\ fst (slice_changed 0 w) = Ok tt
  /\ points_of (snd (slice_changed 0 w)) = ([], []).
Proof.
  intros w. split; [reflexivity|].
  apply (proj1 slice_selection_resets_points w (ramp 3) 0).
  - reflexivity.
  - reflexivity.
  - vm_compute. split; [discriminate | reflexivity].
Defined.

(** C4 as the specification words it fails: selecting a slice does not
    leave the point lists unchanged.  In a window with a stack of three
    slices and the foreground point (1,1), the selection of slice 0
    succeeds and the point is gone. *)
Lemma slice_changed_loses_points :
  ~ (forall (w : MainWindow) (a : np.ndarray spec_float) (value : Z),
        mrc_data w = Some a -> is_stack a = true -> 0 <= value < depth a ->
        points_of (snd (slice_changed value w)) = points_of w).
Proof.
  intros H.
  specialize (H (snd (run [OpenAction "stack.mrc" (Ok (ramp 3));
                           MousePress LeftButton (QPoint.mk 1 1)] (MainWindow_init 30)))
                (ramp 3) 0 eq_refl eq_refl).
  assert (Hi : 0 <= 0 < depth (ramp 3)) by (vm_compute; split; [discriminate | reflexivity]).
  specialize (H Hi). vm_compute in H. discriminate H.
Qed.

(** ** The current slice *)

Lemma bind_eq {A B : Type} (c : method A) (k : A -> method B) (w w' : MainWindow) (a : A) :
  c w = (Ok a, w') -> bind c k w = k a w'.
Proof. intros H. unfold bind. rewrite H. reflexivity. Qed.

(** A call on the selector that emits no signal, or none that is
    connected, only updates the selector. *)
Lemma on_slice_selector_quiet (f : QSpinBox -> QSpinBox * option Z) (w : MainWindow)
  (sb : QSpinBox) :
  slice_selector w = Some sb ->
  snd (f sb) = None \/ connected (fst (f sb)) = false ->
  on_slice_selector f w = (Ok tt, set_slice_selector (Some (fst (f sb))) w).
Proof.
  intros Hs Hq. unfold on_slice_selector.
  rewrite (bind_eq self _ w w w eq_refl). rewrite Hs.
  destruct (f sb) as [sb' emitted]. cbn [fst snd] in *.
  rewrite (bind_eq _ _ w (set_slice_selector (Some sb') w) tt eq_refl).
  destruct emitted as [v|]; [|reflexivity].
  destruct Hq as [Hq | Hq]; [discriminate|]. rewrite Hq. reflexivity.
Qed.

(** A call that changes the value of a connected selector runs
    [slice_changed]. *)
Lemma on_slice_selector_emit (f : QSpinBox -> QSpinBox * option Z) (w : MainWindow)
  (sb sb' : QSpinBox) (v : Z) :
  slice_selector w = Some sb ->
  f sb = (sb', Some v) ->
  connected sb' = true ->
  on_slice_selector f w = slice_changed v (set_slice_selector (Some sb') w).
Proof.
  intros Hs Hf Hc. unfold on_slice_selector.
  rewrite (bind_eq self _ w w w eq_refl). rewrite Hs, Hf.
  rewrite (bind_eq _ _ w (set_slice_selector (Some sb') w) tt eq_refl).
  rewrite Hc. reflexivity.
Qed.

Lemma setMaximum_fresh (T : Z) :
  0 <= T -> setMaximum T (mkQSpinBox 0 99 0 false) = (mkQSpinBox 0 T 0 false, None).
Proof.
  intros HT. unfold setMaximum, setRange, bound. cbn [minimum maximum value connected].
  destruct (0 <? T) eqn:E.
  - rewrite E. replace (Z.max 0 (Z.min T 0)) with 0 by lia. reflexivity.
  - apply Z.ltb_ge in E. assert (T = 0) by lia. subst T. reflexivity.
Qed.

Lemma setValue_fresh (T c : Z) :
  0 <= c <= T ->
  fst (setValue c (mkQSpinBox 0 T 0 false)) = mkQSpinBox 0 T c false
  /\ connected (fst (setValue c (mkQSpinBox 0 T 0 false))) = false.
Proof.
  intros Hc. unfold setValue, bound. cbn [minimum maximum value connected fst].
  replace (Z.max 0 (Z.min T c)) with c by lia. split; reflexivity.
Qed.

(** A maximum below the value of the spin box brings the value down to
    it, and the change is signalled. *)
Lemma setMaximum_below (T : Z) (sb : QSpinBox) :
  minimum sb = 0 -> 0 <= T < value sb ->
  setMaximum T sb = (mkQSpinBox 0 T T (connected sb), Some T).
Proof.
  intros Hm HT. unfold setMaximum, setRange, bound. rewrite Hm.
  destruct (0 <? T) eqn:E.
  - rewrite E. replace (Z.max 0 (Z.min T (value sb))) with T by lia.
    replace (T =? value sb) with false by (symmetry; apply Z.eqb_neq; lia).
    reflexivity.
  - apply Z.ltb_ge in E. assert (T = 0) by lia. subst T.
    change (0 <? 0) with false. cbv iota.
    replace (Z.max 0 (Z.min 0 (value sb))) with 0 by lia.
    replace (0 =? value sb) with false by (symmetry; apply Z.eqb_neq; lia).
    reflexivity.
Qed.

(** The first slice selector: range 0 to [total_slices], value
    [current_slice], no slot run on the way. *)
Lemma create_slice_selector_first (w : MainWindow) :
  slice_selector w = None ->
  0 <= current_slice w <= total_slices w ->
  create_slice_selector w
  = (Ok tt,
     set_slice_selector (Some (mkQSpinBox 0 (total_slices w) (current_slice w) true)) w).
Proof.
  intros Hs Hc. unfold create_slice_selector.
  rewrite (bind_eq self _ w w w eq_refl). rewrite Hs.
  set (T := total_slices w). set (c := current_slice w).
  rewrite (bind_eq _ _ w (set_slice_selector (Some QSpinBox_init) w) tt eq_refl).
  rewrite (bind_eq _ _ _ (set_slice_selector (Some (mkQSpinBox 0 99 0 false)) w) tt).
  2:{ rewrite (on_slice_selector_quiet (setMinimum 0) (set_slice_selector (Some QSpinBox_init) w)
                 QSpinBox_init eq_refl (or_introl eq_refl)).
      reflexivity. }
  rewrite (bind_eq _ _ _ (set_slice_selector (Some (mkQSpinBox 0 T 0 false)) w) tt).
  2:{ rewrite (on_slice_selector_quiet (setMaximum T)
                 (set_slice_selector (Some (mkQSpinBox 0 99 0 false)) w)
                 (mkQSpinBox 0 99 0 false) eq_refl).
      - rewrite setMaximum_fresh by lia. reflexivity.
      - left. rewrite setMaximum_fresh by lia. reflexivity. }
  destruct (setValue_fresh T c Hc) as [Hv Hq].
  rewrite (bind_eq _ _ _ (set_slice_selector (Some (mkQSpinBox 0 T c false)) w) tt).
  2:{ rewrite (on_slice_selector_quiet (setValue c)
                 (set_slice_selector (Some (mkQSpinBox 0 T 0 false)) w)
                 (mkQSpinBox 0 T 0 false) eq_refl).
      - rewrite Hv. reflexivity.
      - right. exact Hq. }
  rewrite (on_slice_selector_quiet (fun sb => (connect sb, None))
             (set_slice_selector (Some (mkQSpinBox 0 T c false)) w)
             (mkQSpinBox 0 T c false) eq_refl (or_introl eq_refl)).
  reflexivity.
Qed.

(** The first stack a window loads: the current slice is the middle
    one, the selector shows it, and the canvas has no point. *)
Lemma open_mrc_file_first (w : MainWindow) (filename : string) (a : np.ndarray spec_float) :
  slice_selector w = None -> is_stack a = true -> 1 <= depth a ->
  exists image_label',
    open_mrc_file filename (Ok a) w
    = (Ok tt,
       mkMainWindow image_label' (foreground_action w) (background_action w)
         (Some a) filename (depth a / 2) (depth a - 1)
         (Some (mkQSpinBox 0 (depth a - 1) (depth a / 2) true))
         (window_size w) (toolbar_height w) (message_boxes w) (files w))
    /\ points_foreground image_label' = []
    /\ points_background image_label' = [].
Proof.
  intros Hsel Hs Hd.
  assert (Hshape : exists n rest, np.shape a = n :: rest /\ depth a = Z.of_nat n).
  { unfold is_stack, depth in *. destruct (np.shape a) as [|n rest]; [discriminate|].
    exists n, rest. split; reflexivity. }
  destruct Hshape as (n & rest & Hshape & Hn).
  assert (Hmid : 0 <= depth a / 2 < depth a).
  { split; [apply Z.div_pos; lia | apply Z.div_lt_upper_bound; lia]. }
  set (w3 := set_total_slices (depth a - 1)
               (set_current_slice (depth a / 2)
                  (set_mrc_filename filename (set_mrc_data (Some a) w)))).
  destruct (stack_slice a (depth a / 2) Hs Hmid) as (slice_data & image & Hg & Hr).
  assert (Hshow : show_mrc_slice (depth a / 2) w3
                  = (Ok tt,
                     set_image_label
                       (set_mrc_image (FromImage image) (Some (get_max_image_size w3))
                          (image_label w3)) w3)).
  { rewrite show_mrc_slice_unfold. unfold mrc_slice. subst w3. cbn [mrc_data set_total_slices
      set_current_slice set_mrc_filename set_mrc_data]. rewrite Hg, Hr. reflexivity. }
  eexists.
  cbv [open_mrc_file try_except bind eval assign self].
  unfold np.len, shape0. rewrite Hshape. rewrite <- Hn.
  cbn [current_slice set_total_slices set_current_slice].
  fold w3. rewrite Hshow.
  rewrite create_slice_selector_first.
  - split; [reflexivity|]. split; reflexivity.
  - subst w3. cbn. exact Hsel.
  - subst w3. cbn. lia.
Qed.

(** The scenario of the specification: a stack of ten slices opens on
    slice 5, and slices 9 and 0 can then be selected. *)
Example ten_slices :
  let w := snd (open_mrc_file "stack.mrc" (Ok (ramp 10)) (MainWindow_init 30)) in
  current_slice w = 5
  /\ message_boxes w = []
  /\ fst (slice_changed 9 w) = Ok tt
  /\ current_slice (snd (slice_changed 9 w)) = 9
  /\ fst (slice_changed 0 (snd (slice_changed 9 w))) = Ok tt
  /\ current_slice (snd (slice_changed 0 (snd (slice_changed 9 w)))) = 0.
Proof. vm_compute. repeat split. Qed.

(** When a selector exists, [create_slice_selector] only sets its
    maximum.  A value above the new maximum is brought down to it, and
    Qt runs [slice_changed] with it. *)
Lemma create_slice_selector_again (w : MainWindow) (sb : QSpinBox) :
  slice_selector w = Some sb ->
  connected sb = true ->
  minimum sb = 0 ->
  0 <= total_slices w < value sb ->
  create_slice_selector w
  = slice_changed (total_slices w)
      (set_slice_selector (Some (mkQSpinBox 0 (total_slices w) (total_slices w) true)) w).
Proof.
  intros Hs Hc Hm Ht. unfold create_slice_selector.
  rewrite (bind_eq self _ w w w eq_refl). rewrite Hs.
  rewrite (on_slice_selector_emit _ w sb
             (mkQSpinBox 0 (total_slices w) (total_slices w) true) (total_slices w) Hs).
  - reflexivity.
  - rewrite (setMaximum_below _ sb Hm Ht), Hc. reflexivity.
  - reflexivity.
Qed.

(** C8 on the code: the current slice of a newly loaded stack is not
    always the middle one.  After a stack of ten slices has been opened
    and its last slice selected, a stack of three slices is opened
    without a notice of failure; the spin box, left at 9, is brought
    down to its new maximum 2 and runs [slice_changed]: the current
    slice is 2, not 1. *)
Theorem second_stack_current_slice :
  let r := run [OpenAction "first.mrc" (Ok (ramp 10));
                SliceSelector 9;
                OpenAction "second.mrc" (Ok (ramp 3))] (MainWindow_init 30) in
  fst r = Ok tt
  /\ mrc_data (snd r) = Some (ramp 3)
  /\ mrc_filename (snd r) = "second.mrc"%string
  /\ message_boxes (snd r) = []
  /\ depth (ramp 3) / 2 = 1
  /\ current_slice (snd r) = 2.
Proof. vm_compute. repeat split. Qed.

(** * Further properties of the code *)

(** ** More on removing points *)

Lemma list_remove_filter (f : QPoint.t -> bool) (p : QPoint.t) (l : list QPoint.t) :
  f p = false -> filter f (list_remove p l) = filter f l.
Proof.
  intros Hp. induction l as [|q l IH]; simpl; [reflexivity|].
  destruct (QPoint.eqb q p) eqn:E.
  - apply QPoint_eqb_eq in E. subst q. rewrite Hp. reflexivity.
  - simpl. rewrite IH. reflexivity.
Qed.

Lemma remove_in_filter (radius : Z) (pos : QPoint.t) (whole rest l : list QPoint.t) :
  incl rest whole ->
  remove_in radius pos whole rest = Some l ->
  filter (fun q => negb (within radius pos q)) l
  = filter (fun q => negb (within radius pos q)) whole.
Proof.
  intros Hincl H. apply remove_in_member in H; [|exact Hincl].
  destruct H as (p & _ & Hnear & ->).
  apply list_remove_filter. rewrite Hnear. reflexivity.
Qed.

(** [remove_point] never touches a point out of reach: the points
    farther than [point_size + 2] from the position are the same, in
    the same order, before and after; and the mode, the image and the
    marker size are as before. *)
Theorem remove_point_keeps_far (pos : QPoint.t) (self : ImageLabel) :
  let far := fun q => negb (within (point_size self + 2) pos q) in
  filter far (points_foreground (remove_point pos self)) = filter far (points_foreground self)
  /\ filter far (points_background (remove_point pos self)) = filter far (points_background self)
  /\ current_mode (remove_point pos self) = current_mode self
  /\ image (remove_point pos self) = image self
  /\ point_size (remove_point pos self) = point_size self.
Proof.
  intros far. unfold remove_point.
  destruct (remove_in _ pos (points_foreground self) (points_foreground self)) as [l|] eqn:Ef.
  - cbn. repeat split. apply (remove_in_filter _ _ _ _ _ (incl_refl _) Ef).
  - destruct (remove_in _ pos (points_background self) (points_background self)) as [l|] eqn:Eb.
    + cbn. repeat split. apply (remove_in_filter _ _ _ _ _ (incl_refl _) Eb).
    + repeat split.
Qed.

Lemma filter_far_all (radius : Z) (pos : QPoint.t) (l : list QPoint.t) :
  Forall (fun q => within radius pos q = false) l ->
  filter (fun q => negb (within radius pos q)) l = l.
Proof.
  intros H. induction H as [|q l Hq _ IH]; simpl; [reflexivity|].
  rewrite Hq. simpl. rewrite IH. reflexivity.
Qed.

Lemma set_points_foreground_same (self : ImageLabel) :
  set_points_foreground (points_foreground self) self = self.
Proof. destruct self; reflexivity. Qed.

Lemma set_points_background_same (self : ImageLabel) :
  set_points_background (points_background self) self = self.
Proof. destruct self; reflexivity. Qed.

(** A left click undone by a right click at the same place: when no
    stored point is within reach of the position, the right click
    removes the point the left click has just added, and the canvas is
    as before the two clicks. *)
Theorem click_then_remove (pos : QPoint.t) (self : ImageLabel) :
  0 <= point_size self + 2 ->
  Forall (fun q => within (point_size self + 2) pos q = false) (all_points self) ->
  mousePressEvent RightButton pos (mousePressEvent LeftButton pos self) = self.
Proof.
  intros Hr Hfar. unfold all_points in Hfar. apply Forall_app in Hfar.
  destruct Hfar as [Hf Hb].
  assert (Hpos : within (point_size self + 2) pos pos = true).
  { unfold within, QPoint.sub, QPoint.manhattanLength. cbn [QPoint.x QPoint.y].
    rewrite !Z.sub_diag. apply Z.leb_le. simpl. exact Hr. }
  cbn [mousePressEvent]. destruct (current_mode self) eqn:Em.
  - unfold remove_point. cbn [point_size points_foreground points_background
      set_points_foreground].
    rewrite (remove_in_split _ _ _ [] pos Hf Hpos). rewrite app_nil_r.
    destruct self; cbn in *. reflexivity.
  - unfold remove_point. cbn [point_size points_foreground points_background
      set_points_background].
    rewrite (remove_in_none _ _ _ _ Hf).
    rewrite (remove_in_split _ _ _ [] pos Hb Hpos). rewrite app_nil_r.
    destruct self; cbn in *. reflexivity.
Qed.

Lemma click_then_remove_witness :
  mousePressEvent RightButton (QPoint.mk 10 10)
    (mousePressEvent LeftButton (QPoint.mk 10 10)
       (mkImageLabel [QPoint.mk 30 30] [QPoint.mk 0 0] background NullPixmap 5))
  = mkImageLabel [QPoint.mk 30 30] [QPoint.mk 0 0] background NullPixmap 5.
Proof.
  apply (click_then_remove (QPoint.mk 10 10)
           (mkImageLabel [QPoint.mk 30 30] [QPoint.mk 0 0] background NullPixmap 5)).
  - vm_compute. discriminate.
  - repeat constructor.
Defined.

Lemma remove_point_point_size (pos : QPoint.t) (self : ImageLabel) :
  point_size (remove_point pos self) = point_size self.
Proof.
  unfold remove_point.
  destruct (remove_in _ pos (points_foreground self) _); [reflexivity|].
  destruct (remove_in _ pos (points_background self) _); reflexivity.
Qed.

Lemma remove_point_filter (pos : QPoint.t) (self : ImageLabel) :
  let far := fun q => negb (within (point_size self + 2) pos q) in
  filter far (points_foreground (remove_point pos self)) = filter far (points_foreground self)
  /\ filter far (points_background (remove_point pos self)) = filter far (points_background self).
Proof.
  intros far. unfold remove_point.
  destruct (remove_in _ pos (points_foreground self) (points_foreground self)) as [l|] eqn:Ef.
  - cbn. split; [|reflexivity]. apply (remove_in_filter _ _ _ _ _ (incl_refl _) Ef).
  - destruct (remove_in _ pos (points_background self) (points_background self)) as [l|] eqn:Eb.
    + cbn. split; [reflexivity|]. apply (remove_in_filter _ _ _ _ _ (incl_refl _) Eb).
    + split; reflexivity.
Qed.

Lemma filter_near_none (radius : Z) (pos : QPoint.t) (l : list QPoint.t) :
  Forall (fun q => within radius pos q = false) l ->
  filter (within radius pos) l = [].
Proof.
  intros H. induction H as [|q l Hq _ IH]; simpl; [reflexivity|].
  rewrite Hq. exact IH.
Qed.

(** Each call removes one of the points within reach, as long as there
    is one. *)
Lemma remove_point_count (pos : QPoint.t) (self : ImageLabel) :
  let near := within (point_size self + 2) pos in
  Datatypes.length (filter near (all_points (remove_point pos self)))
  = Nat.pred (Datatypes.length (filter near (all_points self))).
Proof.
  intros near. unfold remove_point, all_points. subst near.
  set (radius := point_size self + 2).
  destruct (first_within radius pos (points_foreground self))
    as [Hf | (l1 & p & l2 & E & Hfar & Hnear)].
  - rewrite (remove_in_none _ _ _ _ Hf).
    destruct (first_within radius pos (points_background self))
      as [Hb | (l1 & p & l2 & E & Hfar & Hnear)].
    + rewrite (remove_in_none _ _ _ _ Hb).
      rewrite filter_app, (filter_near_none _ _ _ Hf), (filter_near_none _ _ _ Hb).
      reflexivity.
    + rewrite E. rewrite (remove_in_split _ _ _ _ _ Hfar Hnear). cbn.
      rewrite !filter_app, (filter_near_none _ _ _ Hf), (filter_near_none _ _ _ Hfar).
      simpl. rewrite Hnear. reflexivity.
  - rewrite E. rewrite (remove_in_split _ _ _ _ _ Hfar Hnear). cbn.
    rewrite !filter_app, (filter_near_none _ _ _ Hfar). simpl. rewrite Hnear.
    reflexivity.
Qed.

Lemma filter_nil_far (radius : Z) (pos : QPoint.t) (l : list QPoint.t) :
  filter (within radius pos) l = [] ->
  Forall (fun q => within radius pos q = false) l.
Proof.
  induction l as [|q l IH]; simpl; intros H; [constructor|].
  destruct (within radius pos q) eqn:E; [discriminate|].
  constructor; [exact E | apply IH; exact H].
Qed.

Lemma repeated_remove (pos : QPoint.t) (n : nat) :
  forall self : ImageLabel,
    (Datatypes.length (filter (within (point_size self + 2) pos) (all_points self)) <= n)%nat ->
    let far := fun q => negb (within (point_size self + 2) pos q) in
    let self' := Nat.iter n (mousePressEvent RightButton pos) self in
    points_foreground self' = filter far (points_foreground self)
    /\ points_background self' = filter far (points_background self).
Proof.
  induction n as [|n IH]; intros self Hn far self'; subst self'.
  - assert (H0 : filter (within (point_size self + 2) pos) (all_points self) = []).
    { destruct (filter _ (all_points self)); [reflexivity | simpl in Hn; lia]. }
    apply filter_nil_far in H0. unfold all_points in H0. apply Forall_app in H0.
    destruct H0 as [Hf Hb]. simpl. subst far.
    rewrite (filter_far_all _ _ _ Hf), (filter_far_all _ _ _ Hb). split; reflexivity.
  - rewrite Nat.iter_succ_r. change (mousePressEvent RightButton pos self)
      with (remove_point pos self).
    pose proof (remove_point_count pos self) as Hc. cbv zeta in Hc.
    pose proof (remove_point_point_size pos self) as Hs.
    pose proof (remove_point_filter pos self) as [Hff Hfb].
    specialize (IH (remove_point pos self)). rewrite Hs in IH.
    destruct IH as [IHf IHb]; [lia|].
    rewrite IHf, IHb. subst far. split; assumption.
Qed.

(** Right clicks repeated at one place, at least as many as there are
    points within reach of it, remove exactly those points: what is
    left of each list is its points out of reach, in their order. *)
Theorem repeated_right_clicks (pos : QPoint.t) (n : nat) (self : ImageLabel) :
  (Datatypes.length (filter (within (point_size self + 2) pos) (all_points self)) <= n)%nat ->
  let far := fun q => negb (within (point_size self + 2) pos q) in
  let self' := Nat.iter n (mousePressEvent RightButton pos) self in
  points_foreground self' = filter far (points_foreground self)
  /\ points_background self' = filter far (points_background self).
Proof. apply repeated_remove. Qed.

Lemma repeated_right_clicks_witness :
  let self := mkImageLabel [QPoint.mk 1 0; QPoint.mk 40 0; QPoint.mk 0 2]
                [QPoint.mk 0 0; QPoint.mk 0 90] foreground NullPixmap 5 in
  let self' := Nat.iter 3 (mousePressEvent RightButton (QPoint.mk 0 0)) self in
  points_foreground self' = [QPoint.mk 40 0]
  /\ points_background self' = [QPoint.mk 0 90].
Proof.
  intros self.
  apply (repeated_right_clicks (QPoint.mk 0 0) 3 self).
  vm_compute. apply le_n.
Defined.

(** ** The mode actions *)

Lemma handle_actions_agree (ev : event) : invariant actions_agree (handle ev).
Proof.
  destruct ev as [b pos|filename mrc|v| | | |fs].
  - apply invariant_assign. intros w [H1 H2]. split; [|exact H2].
    unfold mode_of in *. cbn. rewrite mousePressEvent_mode. exact H1.
  - apply open_image_invariant; intros; assumption.
  - apply slice_selector_event_invariant; intros; assumption.
  - intros w _. split; reflexivity.
  - intros w _. split; reflexivity.
  - unfold handle, clear_points. invariant_auto; assumption.
  - unfold handle, save_points. invariant_auto; assumption.
Qed.

Lemma run_invariant (P : MainWindow -> Prop) (evs : list event) :
  (forall ev, In ev evs -> invariant P (handle ev)) -> invariant P (run evs).
Proof.
  induction evs as [|ev evs IH]; intros H; simpl.
  - apply invariant_ret.
  - apply invariant_bind.
    + apply H. left. reflexivity.
    + intros _. apply IH. intros ev' Hin. apply H. right. exact Hin.
Qed.

(** Whatever the user does from the start of the program, the two mode
    actions stay mutually exclusive and the checked one is the mode of
    the canvas. *)
Theorem actions_show_mode (toolbar : Z) (evs : list event) :
  let w := snd (run evs (MainWindow_init toolbar)) in
  background_action w = negb (foreground_action w)
  /\ (foreground_action w = true <-> current_mode (image_label w) = foreground)
  /\ (background_action w = true <-> current_mode (image_label w) = background).
Proof.
  intros w.
  assert (H : actions_agree w).
  { apply (run_invariant actions_agree evs).
    - intros ev _. apply handle_actions_agree.
    - split; reflexivity. }
  destruct H as [H1 H2]. unfold mode_of in H1. rewrite H2, H1.
  destruct (current_mode (image_label w)); cbn; repeat split; congruence.
Qed.

Lemma handle_mode_after (ev : event) (w w' : MainWindow) (r : result unit) :
  handle ev w = (r, w') -> mode_of w' = mode_after (mode_of w) ev.
Proof.
  intros H.
  destruct (is_mode_toggle ev) eqn:Et.
  - destruct ev; try discriminate; cbn in H; inversion H; reflexivity.
  - pose proof (handle_mode (mode_of w) ev Et w eq_refl) as Hm.
    rewrite H in Hm. cbn [snd] in Hm. rewrite Hm.
    destruct ev; try reflexivity; discriminate.
Qed.

(** In a session that runs to its end, the mode of the canvas is the
    one the last mode action asked for, or the mode at the start when
    there was none: no other action changes it. *)
Theorem mode_is_last_toggle (evs : list event) :
  forall w : MainWindow,
    fst (run evs w) = Ok tt ->
    mode_of (snd (run evs w)) = fold_left mode_after evs (mode_of w).
Proof.
  induction evs as [|ev evs IH]; intros w Hok; [reflexivity|].
  cbn [run fold_left] in *.
  apply bind_ok in Hok as Hb. destruct Hb as ([] & w' & Hev & Hrun).
  rewrite Hrun in *. rewrite (IH w' Hok).
  rewrite (handle_mode_after ev w w' (Ok tt) Hev). reflexivity.
Qed.

Lemma mode_is_last_toggle_witness :
  mode_of (snd (run [MousePress LeftButton (QPoint.mk 1 1);
                     BackgroundAction;
                     OpenAction "stack.mrc" (Ok (ramp 3));
                     ForegroundAction;
                     BackgroundAction;
                     SliceSelector 2;
                     SaveAction (mk_filesystem true (Ok tt) (Ok tt))]
                  (MainWindow_init 30)))
  = background.
Proof.
  apply (mode_is_last_toggle
           [MousePress LeftButton (QPoint.mk 1 1);
            BackgroundAction;
            OpenAction "stack.mrc" (Ok (ramp 3));
            ForegroundAction;
            BackgroundAction;
            SliceSelector 2;
            SaveAction (mk_filesystem true (Ok tt) (Ok tt))]
           (MainWindow_init 30)).
  vm_compute. reflexivity.
Defined.

(** ** What the actions show and write *)

(** Only the save action writes a file, and only the open and save
    actions show a notice; the save action never loads or drops
    volumetric data and never moves the current slice. *)
Theorem effects_of_events (ev : event) (w : MainWindow) :
  let w' := snd (handle ev w) in
  match ev with
  | SaveAction _ =>
      mrc_data w' = mrc_data w /\ mrc_filename w' = mrc_filename w
      /\ current_slice w' = current_slice w /\ image_label w' = image_label w
      /\ slice_selector w' = slice_selector w
  | OpenAction _ _ => files w' = files w
  | _ => files w' = files w /\ message_boxes w' = message_boxes w
  end.
Proof.
  intros w'. subst w'.
  destruct ev as [b pos|filename mrc|v| | | |fs].
  - split; reflexivity.
  - apply (open_image_invariant (fun w' => files w' = files w));
      intros; assumption || reflexivity.
  - apply (slice_selector_event_invariant
             (fun w' => files w' = files w /\ message_boxes w' = message_boxes w));
      intros; assumption || (split; reflexivity).
  - split; reflexivity.
  - split; reflexivity.
  - split; reflexivity.
  - assert (H : invariant
                  (fun w' => mrc_data w' = mrc_data w /\ mrc_filename w' = mrc_filename w
                             /\ current_slice w' = current_slice w
                             /\ image_label w' = image_label w
                             /\ slice_selector w' = slice_selector w)
                  (save_points fs)).
    { unfold save_points. invariant_auto; assumption. }
    apply H. repeat split.
Qed.

(** ** The outcomes of a save *)

(** The arrays of [save_points] can be stacked unless exactly one of
    the two lists is empty. *)
Lemma vstack_points (fg bg : list QPoint.t) :
  match fg, bg with
  | [], _ :: _ | _ :: _, [] =>
      np.vstack (np.array (rows fg)) (np.array (rows bg)) = Raise ValueError
  | _, _ => exists a, np.vstack (np.array (rows fg)) (np.array (rows bg)) = Ok a
  end.
Proof.
  destruct fg as [|p fg], bg as [|q bg]; cbn; try reflexivity; eexists; reflexivity.
Qed.

Lemma labels_defined (fg bg : list QPoint.t) :
  exists m k labels,
    np.len (np.array (rows fg)) = Ok m
    /\ np.len (np.array (rows bg)) = Ok k
    /\ np.hstack (np.ones m) (np.zeros k) = Ok labels.
Proof.
  destruct fg as [|p fg], bg as [|q bg]; cbn; repeat eexists.
Qed.

(** The three ways [save_points] ends. *)
Lemma save_points_cases (fs : filesystem) (w : MainWindow) :
  let stacked := np.vstack (np.array (rows (points_foreground (image_label w))))
                   (np.array (rows (points_background (image_label w)))) in
  (exists e, save_points fs w = (Raise e, w)
             /\ ((path_exists fs = false /\ makedirs fs = Raise e)
                 \/ (e = ValueError /\ stacked = Raise ValueError)))
  \/ (exists e all, savez fs = Raise e /\ stacked = Ok all
                /\ save_points fs w = (Ok tt, show_message_box (critical_save e) w))
  \/ (exists all labels,
         savez fs = Ok tt /\ stacked = Ok all
         /\ save_points fs w
            = (Ok tt,
               show_message_box (information_saved (save_path_of (mrc_filename w)))
                 (write_file (save_path_of (mrc_filename w))
                    (mk_npz (mrc_filename w) all labels) w))).
Proof.
  intros stacked. unfold save_points.
  assert (Hdir : (exists e, path_exists fs = false /\ makedirs fs = Raise e)
                 \/ (if path_exists fs then ret tt else eval (makedirs fs)) w = (Ok tt, w)).
  { destruct (path_exists fs); [right; reflexivity|].
    destruct (makedirs fs) as [[]|e]; [right; reflexivity|].
    left. exists e. split; reflexivity. }
  destruct Hdir as [(e & Hp & Hm) | Hdir].
  - left. exists e. split; [|left; split; assumption].
    unfold bind. rewrite Hp. unfold eval. rewrite Hm. reflexivity.
  - rewrite (bind_eq _ _ w w tt Hdir). rewrite (bind_eq self _ w w w eq_refl).
    pose proof (vstack_points (points_foreground (image_label w))
                  (points_background (image_label w))) as Hv.
    destruct (labels_defined (points_foreground (image_label w))
                (points_background (image_label w))) as (m & k & labels & Hm & Hk & Hl).
    fold stacked. fold stacked in Hv.
    destruct stacked as [all|e] eqn:Ev.
    + rewrite (bind_eq _ _ w w all eq_refl).
      cbv [try_except bind eval assign]. rewrite Hm, Hk, Hl.
      destruct (savez fs) as [[]|e].
      * right. right. exists all, labels.
        split; [reflexivity|]. split; reflexivity.
      * right. left. exists e, all. split; [reflexivity|]. split; reflexivity.
    + left. exists e.
      assert (e = ValueError).
      { destruct (points_foreground (image_label w)), (points_background (image_label w));
          try (destruct Hv; discriminate); congruence. }
      subst e. split; [reflexivity | right; split; reflexivity].
Qed.

(** [save_points] changes the window only by what it shows and writes.
    When it returns, it has shown exactly one notice: the path of the
    archive it has just written, or the failure of [np.savez], nothing
    being written then.  When it raises, nothing was shown or written
    and the window is as before. *)
Theorem save_points_outcome (fs : filesystem) (w : MainWindow) :
  let w' := snd (save_points fs w) in
  match fst (save_points fs w) with
  | Raise _ => w' = w
  | Ok _ =>
      (exists save_path archive,
          savez fs = Ok tt
          /\ message_boxes w' = information_saved save_path :: message_boxes w
          /\ files w' = (save_path, archive) :: files w)
      \/ (exists e,
            savez fs = Raise e
            /\ message_boxes w' = critical_save e :: message_boxes w
            /\ files w' = files w)
  end.
Proof.
  intros w'. subst w'.
  pose proof (save_points_cases fs w) as Hc. cbv zeta in Hc.
  destruct Hc
    as [(e & E & _) | [(e & all & Hs & _ & E) | (all & labels & Hs & _ & E)]];
    rewrite E; cbn.
  - reflexivity.
  - right. exists e. repeat split. exact Hs.
  - left. eexists. eexists. repeat split. exact Hs.
Qed.

(** When the output directory exists or can be created, [save_points]
    raises exactly when one of the two point lists is empty and the
    other is not, and the exception is the [ValueError] of
    [np.vstack]. *)
Theorem save_points_raises (fs : filesystem) (w : MainWindow) :
  path_exists fs = true \/ makedirs fs = Ok tt ->
  let fg := points_foreground (image_label w) in
  let bg := points_background (image_label w) in
  ((exists e, fst (save_points fs w) = Raise e)
   <-> (fg = [] /\ bg <> []) \/ (fg <> [] /\ bg = []))
  /\ (forall e, fst (save_points fs w) = Raise e -> e = ValueError).
Proof.
  intros Hdir fg bg.
  pose proof (vstack_points fg bg) as Hv.
  pose proof (save_points_cases fs w) as Hc. cbv zeta in Hc. fold fg bg in Hc.
  destruct Hc
    as [(e & E & [[Hp Hm] | [He Hr]])
       | [(e & all & _ & Hr & E) | (all & labels & _ & Hr & E)]].
  - destruct Hdir; congruence.
  - rewrite E. cbn. subst e. split; [|intros e He; congruence].
    split; [intros _ | intros _; exists ValueError; reflexivity].
    rewrite Hr in Hv.
    destruct fg, bg; try (destruct Hv; discriminate).
    + left. split; [reflexivity | discriminate].
    + right. split; [discriminate | reflexivity].
  - rewrite E. cbn. split; [|intros e' He'; discriminate].
    split; [intros [e' He']; discriminate|].
    rewrite Hr in Hv.
    intros [[Hf Hb] | [Hf Hb]]; destruct fg, bg; try contradiction; discriminate.
  - rewrite E. cbn. split; [|intros e' He'; discriminate].
    split; [intros [e' He']; discriminate|].
    rewrite Hr in Hv.
    intros [[Hf Hb] | [Hf Hb]]; destruct fg, bg; try contradiction; discriminate.
Qed.

Lemma save_points_raises_witness :
  let w := snd (handle (MousePress LeftButton (QPoint.mk 3 4)) (MainWindow_init 30)) in
  let fs := mk_filesystem false (Ok tt) (Ok tt) in
  ((exists e, fst (save_points fs w) = Raise e)
   <-> (points_foreground (image_label w) = [] /\ points_background (image_label w) <> [])
       \/ (points_foreground (image_label w) <> [] /\ points_background (image_label w) = []))
  /\ (forall e, fst (save_points fs w) = Raise e -> e = ValueError).
Proof.
  intros w fs. apply (save_points_raises fs w). right. reflexivity.
Defined.

(** ** File names *)

Lemma occurs_app (c : ascii) (s t : string) :
  occurs c (s ++ t) = occurs c s || occurs c t.
Proof.
  induction s as [|a s IH]; simpl; [reflexivity|].
  rewrite IH, orb_assoc. reflexivity.
Qed.

Lemma substring_all (t : string) : substring 0 (String.length t) t = t.
Proof. induction t as [|c t IH]; simpl; [reflexivity | rewrite IH; reflexivity]. Qed.

Lemma substring_app_l (s t : string) : substring 0 (String.length s) (s ++ t) = s.
Proof.
  induction s as [|c s IH]; simpl.
  - destruct t; reflexivity.
  - rewrite IH. reflexivity.
Qed.

Lemma substring_app_r (s t : string) :
  substring (String.length s) (String.length (s ++ t) - String.length s) (s ++ t) = t.
Proof.
  induction s as [|c s IH]; simpl.
  - rewrite Nat.sub_0_r. apply substring_all.
  - exact IH.
Qed.

Lemma length_append (s t : string) :
  String.length (s ++ t) = (String.length s + String.length t)%nat.
Proof. induction s as [|c s IH]; simpl; [reflexivity | rewrite IH; reflexivity]. Qed.

(** [rfind] finds the last occurrence. *)
Lemma rfind_from_split (c : ascii) (s : string) :
  forall i, 0 <= i ->
    (os_path.rfind_from c s i = -1 /\ occurs c s = false)
    \/ (exists s1 s2, s = (s1 ++ String c s2)%string /\ occurs c s2 = false
          /\ os_path.rfind_from c s i = i + Z.of_nat (String.length s1)).
Proof.
  induction s as [|a s IH]; intros i Hi; simpl.
  - left. split; reflexivity.
  - destruct (IH (i + 1)) as [[Hr Ho] | (s1 & s2 & E & Ho & Hr)]; [lia| |].
    + rewrite Hr. change (0 <=? -1) with false. cbv iota.
      destruct (Ascii.eqb a c) eqn:Ea.
      * right. apply Ascii.eqb_eq in Ea. subst a. exists EmptyString, s.
        repeat split; [exact Ho | simpl; lia].
      * left. split; [reflexivity | rewrite Ho; reflexivity].
    + right. rewrite Hr.
      replace (0 <=? i + 1 + Z.of_nat (String.length s1)) with true
        by (symmetry; apply Z.leb_le; lia).
      exists (String a s1), s2. subst s. repeat split; [exact Ho | simpl String.length; lia].
Qed.

Lemma upto_split (s1 s2 : string) (c : ascii) :
  os_path.upto (s1 ++ String c s2) (Z.of_nat (String.length s1)) = s1.
Proof. unfold os_path.upto. rewrite Nat2Z.id. apply substring_app_l. Qed.

Lemma from_split (s1 t : string) :
  os_path.from (s1 ++ t) (Z.of_nat (String.length s1)) = t.
Proof. unfold os_path.from. rewrite Nat2Z.id. apply substring_app_r. Qed.

Lemma from_start (p : string) : os_path.from p 0 = p.
Proof. unfold os_path.from. simpl. rewrite Nat.sub_0_r. apply substring_all. Qed.

Lemma append_assoc_char (s1 s2 : string) (c : ascii) :
  (s1 ++ String c s2 = (s1 ++ String c EmptyString) ++ s2)%string.
Proof. induction s1 as [|a s1 IH]; simpl; [reflexivity | rewrite IH; reflexivity]. Qed.

(** [os.path.basename]: what follows the last slash, the whole name
    when there is none. *)
Lemma basename_cases (p : string) :
  (occurs "/" p = false /\ os_path.basename p = p)
  \/ (exists t1 t2, p = (t1 ++ String "/" t2)%string /\ occurs "/" t2 = false
        /\ os_path.basename p = t2).
Proof.
  unfold os_path.basename, os_path.rfind.
  destruct (rfind_from_split "/" p 0) as [[Hr Ho] | (t1 & t2 & E & Ho & Hr)]; [lia| |].
  - left. rewrite Hr. split; [exact Ho | apply from_start].
  - right. exists t1, t2. repeat split; [exact E | exact Ho |].
    rewrite Hr. subst p. rewrite (append_assoc_char t1 t2 "/").
    replace (0 + Z.of_nat (String.length t1) + 1)
      with (Z.of_nat (String.length (t1 ++ String "/" EmptyString))).
    + apply from_split.
    + rewrite length_append. simpl String.length. lia.
Qed.

(** [os.path.splitext]: the name as it is, or cut before its last
    dot. *)
Lemma splitext_cases (p : string) :
  os_path.splitext p = (p, EmptyString)
  \/ (exists s1 s2, p = (s1 ++ String "." s2)%string /\ occurs "." s2 = false
        /\ os_path.splitext p = (s1, String "." s2)).
Proof.
  unfold os_path.splitext, os_path.rfind.
  destruct (_ && _) eqn:Ec; [|left; reflexivity].
  apply andb_true_iff in Ec. destruct Ec as [Hlt _]. apply Z.ltb_lt in Hlt.
  destruct (rfind_from_split "." p 0) as [[Hr Ho] | (s1 & s2 & E & Ho & Hr)]; [lia| |].
  - exfalso. rewrite Hr in Hlt.
    destruct (rfind_from_split "/" p 0) as [[Hs _] | (t1 & t2 & _ & _ & Hs)]; [lia| |];
      rewrite Hs in Hlt; lia.
  - right. exists s1, s2. repeat split; [exact E | exact Ho |].
    rewrite Hr. replace (0 + Z.of_nat (String.length s1)) with (Z.of_nat (String.length s1))
      by lia.
    rewrite E. rewrite upto_split, from_split. reflexivity.
Qed.

Lemma append_empty_r (s : string) : (s ++ EmptyString)%string = s.
Proof. induction s as [|c s IH]; simpl; [reflexivity | rewrite IH; reflexivity]. Qed.

(** [os.path.splitext] loses nothing: the root followed by the
    extension is the path; and the extension is empty, or a dot
    followed by characters that are not dots. *)
Lemma splitext_join (p : string) :
  (fst (os_path.splitext p) ++ snd (os_path.splitext p))%string = p
  /\ (snd (os_path.splitext p) = EmptyString
      \/ exists rest, snd (os_path.splitext p) = String "." rest /\ occurs "." rest = false).
Proof.
  destruct (splitext_cases p) as [E | (s1 & s2 & Ep & Ho & E)]; rewrite E; cbn [fst snd].
  - split; [apply append_empty_r | left; reflexivity].
  - split; [symmetry; exact Ep|]. right. exists s2. split; [reflexivity | exact Ho].
Qed.

Lemma join_input_points (b : string) :
  prefix "/" b = false ->
  os_path.join "input_points" b = ("input_points/" ++ b)%string.
Proof. intros H. unfold os_path.join. rewrite H. reflexivity. Qed.

Lemma prefix_slash (c : ascii) (rest : string) :
  Ascii.eqb c "/" = false -> prefix "/" (String c rest) = false.
Proof.
  intros H. destruct (prefix "/" (String c rest)) eqn:E; [|reflexivity].
  apply prefix_correct in E. simpl in E. inversion E. subst c. discriminate H.
Qed.

Lemma save_path_in_directory (filename : string) :
  exists base,
    save_path_of filename = ("input_points/" ++ base ++ "_points.npz")%string
    /\ base <> EmptyString
    /\ occurs "/" base = false.
Proof.
  unfold save_path_of.
  set (base0 := fst (os_path.splitext (os_path.basename filename))).
  assert (H0 : occurs "/" base0 = false).
  { subst base0.
    assert (Hb : occurs "/" (os_path.basename filename) = false).
    { destruct (basename_cases filename) as [[Ho E] | (t1 & t2 & _ & Ho & E)];
        rewrite E; exact Ho. }
    destruct (splitext_cases (os_path.basename filename)) as [E | (s1 & s2 & Ep & _ & E)];
      rewrite E; cbn [fst].
    - exact Hb.
    - rewrite Ep, occurs_app in Hb. apply orb_false_iff in Hb. apply Hb. }
  destruct (String.eqb base0 "") eqn:Ee.
  - exists "image"%string. split; [reflexivity|]. split; [discriminate | reflexivity].
  - exists base0. apply String.eqb_neq in Ee. split; [|split; [exact Ee | exact H0]].
    apply join_input_points.
    destruct base0 as [|c rest]; [contradiction|].
    simpl in H0. apply orb_false_iff in H0. destruct H0 as [Hc _].
    simpl append. apply prefix_slash. exact Hc.
Qed.

Example save_path_of_stack :
  save_path_of "/data/run.7/tomo_01.rec.mrc" = "input_points/tomo_01.rec_points.npz"%string
  /\ save_path_of "" = "input_points/image_points.npz"%string
  /\ save_path_of "/data/.mrc" = "input_points/.mrc_points.npz"%string.
Proof. repeat split. Qed.

(** The archive is always written in the directory [input_points]: the
    path of a file [save_points] writes is [input_points/], a base name
    that is not empty and has no slash, then [_points.npz]. *)
Theorem archive_in_directory (fs : filesystem) (w : MainWindow) (path : string)
  (archive : npz) :
  In (path, archive) (files (snd (save_points fs w))) ->
  In (path, archive) (files w)
  \/ exists base,
       path = ("input_points/" ++ base ++ "_points.npz")%string
       /\ base <> EmptyString
       /\ occurs "/" base = false.
Proof.
  pose proof (save_points_cases fs w) as Hc. cbv zeta in Hc.
  destruct Hc as [(e & E & _) | [(e & all & _ & _ & E) | (all & labels & _ & _ & E)]];
    rewrite E; cbn [snd]; intros Hin.
  - left. exact Hin.
  - left. exact Hin.
  - cbn in Hin. destruct Hin as [Hnew | Hold]; [|left; exact Hold].
    right. inversion Hnew; subst. apply save_path_in_directory.
Qed.

Lemma archive_in_directory_witness :
  In ("input_points/tomo_points.npz"%string,
      mk_npz "/data/tomo.mrc" (np.mk np.float64 [2%nat; 0%nat] []) (np.mk np.int64 [0%nat] []))
     (files (snd (save_points (mk_filesystem true (Ok tt) (Ok tt))
                    (set_mrc_filename "/data/tomo.mrc" (MainWindow_init 30)))))
  /\ exists base,
       "input_points/tomo_points.npz"%string = ("input_points/" ++ base ++ "_points.npz")%string
       /\ base <> EmptyString
       /\ occurs "/" base = false.
Proof.
  assert (Hin : In ("input_points/tomo_points.npz"%string,
                    mk_npz "/data/tomo.mrc" (np.mk np.float64 [2%nat; 0%nat] [])
                      (np.mk np.int64 [0%nat] []))
                  (files (snd (save_points (mk_filesystem true (Ok tt) (Ok tt))
                                 (set_mrc_filename "/data/tomo.mrc" (MainWindow_init 30)))))).
  { left. reflexivity. }
  split; [exact Hin|].
  destruct (archive_in_directory _ _ _ _ Hin) as [[] | H]. exact H.
Defined.

(** ** More on rendering *)

Lemma render_slice_cases (slice_data : np.ndarray spec_float) :
  match render_slice slice_data with
  | Ok image =>
      np.shape slice_data = [img_height image; img_width image]
      /\ np.size (np.shape slice_data) <> 0%nat
      /\ bytesPerLine image = img_width image
      /\ Datatypes.length (bits image) = Datatypes.length (np.data slice_data)
  | Raise e =>
      (np.size (np.shape slice_data) = 0%nat /\ e = IndexError)
      \/ (np.size (np.shape slice_data) <> 0%nat
          /\ (forall height width, np.shape slice_data <> [height; width])
          /\ e = ValueError)
  end.
Proof.
  destruct (np.size (np.shape slice_data) =? 0)%nat eqn:Es.
  - unfold render_slice, np.percentile. rewrite Es. cbn.
    apply Nat.eqb_eq in Es. left. split; [exact Es | reflexivity].
  - apply Nat.eqb_neq in Es.
    destruct (percentile_defined slice_data 1 99 Es) as (p01 & p99 & Hp).
    destruct (np.shape slice_data) as [|height [|width [|]]] eqn:Eshape.
    + unfold render_slice. rewrite Hp. unfold result_bind.
      rewrite normalize_shape, Eshape. right. repeat split; [exact Es | discriminate].
    + unfold render_slice. rewrite Hp. unfold result_bind.
      rewrite normalize_shape, Eshape. right. repeat split; [exact Es | discriminate].
    + rewrite (render_slice_2d slice_data p01 p99 height width Eshape Hp).
      cbn [img_height img_width bytesPerLine bits]. rewrite length_map.
      repeat split. exact Es.
    + unfold render_slice. rewrite Hp. unfold result_bind.
      rewrite normalize_shape, Eshape. right. repeat split; [exact Es | discriminate].
Qed.

(** [render_slice] succeeds exactly on the two-dimensional slices that
    are not empty, with one pixel for each voxel.  An empty slice makes
    [np.percentile] raise; a slice that is not empty and not
    two-dimensional fails at the unpacking of its shape. *)
Theorem render_slice_result (slice_data : np.ndarray spec_float) :
  match render_slice slice_data with
  | Ok image =>
      np.shape slice_data = [img_height image; img_width image]
      /\ np.size (np.shape slice_data) <> 0%nat
      /\ bytesPerLine image = img_width image
      /\ Datatypes.length (bits image) = Datatypes.length (np.data slice_data)
  | Raise e =>
      (np.size (np.shape slice_data) = 0%nat /\ e = IndexError)
      \/ (np.size (np.shape slice_data) <> 0%nat
          /\ (forall height width, np.shape slice_data <> [height; width])
          /\ e = ValueError)
  end.
Proof. apply render_slice_cases. Qed.





(** ** Indices out of range and files that are not stacks *)

Lemma getitem_out_of_range {A : Type} (a : np.ndarray A) (i : Z) :
  i < - Z.of_nat (hd 0%nat (np.shape a)) \/ Z.of_nat (hd 0%nat (np.shape a)) <= i ->
  np.getitem a i = Raise IndexError.
Proof.
  intros Hi. unfold np.getitem. destruct (np.shape a) as [|n rest]; [reflexivity|].
  cbn [hd] in Hi.
  replace ((- Z.of_nat n <=? i) && (i <? Z.of_nat n)) with false; [reflexivity|].
  symmetry. apply andb_false_iff.
  destruct Hi as [Hi | Hi]; [left; apply Z.leb_gt; lia | right; apply Z.ltb_ge; lia].
Qed.

(** [slice_changed] records the index before it displays the slice.
    With an index out of range the display raises [IndexError], and
    the window is left with that index as its current slice; the
    canvas, its image and its points are as before. *)
Theorem slice_changed_out_of_range (w : MainWindow) (a : np.ndarray spec_float) (value : Z) :
  mrc_data w = Some a ->
  value < - depth a \/ depth a <= value ->
  slice_changed value w = (Raise IndexError, set_current_slice value w).
Proof.
  intros Hd Hv. rewrite slice_changed_unfold, show_mrc_slice_unfold.
  unfold mrc_slice. cbn [mrc_data set_current_slice]. rewrite Hd.
  rewrite getitem_out_of_range; [reflexivity|].
  unfold depth in Hv. destruct (np.shape a) as [|n rest]; cbn [hd]; lia.
Qed.

Lemma slice_changed_out_of_range_witness :
  let w := snd (open_mrc_file "stack.mrc" (Ok (ramp 3)) (MainWindow_init 30)) in
  slice_changed 3 w = (Raise IndexError, set_current_slice 3 w).
Proof.
  intros w. apply (slice_changed_out_of_range w (ramp 3) 3).
  - reflexivity.
  - right. vm_compute. discriminate.
Defined.

(** A negative index counts from the end, as Python indices do:
    [slice_changed] with [-k] displays the same slice as with
    [depth - k], but records [-k] as the current slice. *)
Theorem slice_changed_negative (w : MainWindow) (a : np.ndarray spec_float) (value : Z) :
  mrc_data w = Some a ->
  - depth a <= value < 0 ->
  slice_changed value w
  = (fst (slice_changed (value + depth a) w),
     set_current_slice value (snd (slice_changed (value + depth a) w))).
Proof.
  intros Hd Hv. rewrite !slice_changed_unfold, !show_mrc_slice_unfold.
  unfold mrc_slice. cbn [mrc_data set_current_slice]. rewrite Hd.
  assert (Hg : np.getitem a value = np.getitem a (value + depth a)).
  { unfold np.getitem, depth in *. destruct (np.shape a) as [|n rest]; [reflexivity|].
    replace ((- Z.of_nat n <=? value) && (value <? Z.of_nat n)) with true
      by (symmetry; apply andb_true_iff; split; [apply Z.leb_le | apply Z.ltb_lt]; lia).
    replace ((- Z.of_nat n <=? value + Z.of_nat n) && (value + Z.of_nat n <? Z.of_nat n))
      with true
      by (symmetry; apply andb_true_iff; split; [apply Z.leb_le | apply Z.ltb_lt]; lia).
    replace (value <? 0) with true by (symmetry; apply Z.ltb_lt; lia).
    replace (value + Z.of_nat n <? 0) with false by (symmetry; apply Z.ltb_ge; lia).
    reflexivity. }
  rewrite Hg. destruct (np.getitem a (value + depth a)) as [slice_data|e]; [|reflexivity].
  destruct (render_slice slice_data) as [image|e]; reflexivity.
Qed.

Lemma slice_changed_negative_witness :
  let w := snd (open_mrc_file "stack.mrc" (Ok (ramp 3)) (MainWindow_init 30)) in
  slice_changed (-1) w
  = (fst (slice_changed (-1 + depth (ramp 3)) w),
     set_current_slice (-1) (snd (slice_changed (-1 + depth (ramp 3)) w))).
Proof.
  intros w. apply (slice_changed_negative w (ramp 3) (-1)).
  - reflexivity.
  - vm_compute. split; [discriminate | reflexivity].
Defined.

(** A file that holds a single image, a two-dimensional array, is not
    displayed: the slice taken from it has one dimension and the
    unpacking of its shape raises.  The notice is shown and the canvas
    keeps its image and its points, but the data, the file name, the
    current slice and the number of slices of the window are already
    those of the new file. *)
Theorem open_mrc_file_single_image (w : MainWindow) (filename : string)
  (dt : np.dtype_t) (n m : nat) (voxels : list spec_float) :
  n <> 0%nat -> m <> 0%nat ->
  open_mrc_file filename (Ok (np.mk dt [n; m] voxels)) w
  = (Ok tt,
     mkMainWindow (image_label w) (foreground_action w) (background_action w)
       (Some (np.mk dt [n; m] voxels)) filename (Z.of_nat n / 2) (Z.of_nat n - 1)
       (slice_selector w) (window_size w) (toolbar_height w)
       (critical_open ValueError :: message_boxes w) (files w)).
Proof.
  intros Hn Hm.
  set (a := np.mk dt [n; m] voxels).
  set (w3 := set_total_slices (Z.of_nat n - 1)
               (set_current_slice (Z.of_nat n / 2)
                  (set_mrc_filename filename (set_mrc_data (Some a) w)))).
  assert (Hmid : 0 <= Z.of_nat n / 2 < Z.of_nat n).
  { split; [apply Z.div_pos; lia | apply Z.div_lt_upper_bound; lia]. }
  assert (Hshow : show_mrc_slice (Z.of_nat n / 2) w3 = (Raise ValueError, w3)).
  { rewrite show_mrc_slice_unfold. unfold mrc_slice. subst w3.
    cbn [mrc_data set_total_slices set_current_slice set_mrc_filename set_mrc_data].
    unfold np.getitem. subst a. cbn [np.shape np.dtype np.data].
    replace ((- Z.of_nat n <=? Z.of_nat n / 2) && (Z.of_nat n / 2 <? Z.of_nat n)) with true
      by (symmetry; apply andb_true_iff; split; [apply Z.leb_le | apply Z.ltb_lt]; lia).
    match goal with |- context [render_slice ?s] => set (slice_data := s) end.
    pose proof (render_slice_cases slice_data) as Hr.
    destruct (render_slice slice_data) as [image|e].
    - destruct Hr as [Hs _]. subst slice_data. discriminate Hs.
    - destruct Hr as [[Hs _] | (_ & _ & ->)]; [|reflexivity].
      subst slice_data. cbn in Hs. lia. }
  cbv [open_mrc_file try_except bind eval assign self].
  subst a. cbn [np.len shape0 np.shape].
  cbn [current_slice set_total_slices set_current_slice].
  fold w3. rewrite Hshow. reflexivity.
Qed.

Lemma open_mrc_file_single_image_witness :
  let w := snd (run [OpenAction "stack.mrc" (Ok (ramp 3));
                     MousePress LeftButton (QPoint.mk 1 1)] (MainWindow_init 30)) in
  open_mrc_file "image.mrc" (Ok (np.mk np.float32 [2%nat; 2%nat] (np.data steps))) w
  = (Ok tt,
     mkMainWindow (image_label w) (foreground_action w) (background_action w)
       (Some (np.mk np.float32 [2%nat; 2%nat] (np.data steps))) "image.mrc"
       (Z.of_nat 2 / 2) (Z.of_nat 2 - 1)
       (slice_selector w) (window_size w) (toolbar_height w)
       (critical_open ValueError :: message_boxes w) (files w)).
Proof.
  intros w.
  apply (open_mrc_file_single_image w "image.mrc" np.float32 2 2 (np.data steps));
    discriminate.
Defined.

(** Once a slice selector exists, opening a flat image ends in an
    [AttributeError]: the tool bar has no method [removeWidget].  By
    then the image is on the canvas, the points are reset and the
    volumetric data is dropped; the selector is still there. *)
Theorem open_flat_image_after_stack (w : MainWindow) (filename : string)
  (mrc : result (np.ndarray spec_float)) (sb : QSpinBox) :
  filename <> ""%string ->
  os_path.lower (snd (os_path.splitext filename)) <> ".mrc"%string ->
  slice_selector w = Some sb ->
  open_image filename mrc w
  = (Raise AttributeError,
     mkMainWindow
       (mkImageLabel [] [] (current_mode (image_label w))
          (scaled_to (Some (get_max_image_size w)) (FromFile filename))
          (point_size (image_label w)))
       (foreground_action w) (background_action w) None ""%string
       (current_slice w) (total_slices w) (Some sb)
       (window_size w) (toolbar_height w) (message_boxes w) (files w)).
Proof.
  intros Hname Hext Hsel. unfold open_image.
  apply String.eqb_neq in Hname. rewrite Hname.
  apply String.eqb_neq in Hext. rewrite Hext.
  cbv [bind assign self]. cbn [slice_selector set_mrc_data set_mrc_filename].
  rewrite Hsel. destruct w. cbn in Hsel. subst. reflexivity.
Qed.

Lemma open_flat_image_after_stack_witness :
  let w := snd (open_mrc_file "stack.mrc" (Ok (ramp 3)) (MainWindow_init 30)) in
  fst (open_image "cells.PNG" (Raise OSError) w) = Raise AttributeError.
Proof.
  intros w.
  rewrite (open_flat_image_after_stack w "cells.PNG" (Raise OSError)
             (mkQSpinBox 0 2 1 true)).
  - reflexivity.
  - discriminate.
  - vm_compute. discriminate.
  - reflexivity.
Defined.

(** ** Loading a stack into any window *)

Lemma setMaximum_within (T : Z) (sb : QSpinBox) :
  minimum sb = 0 -> 0 <= value sb <= T ->
  setMaximum T sb = (mkQSpinBox 0 T (value sb) (connected sb), None).
Proof.
  intros Hm Hv. unfold setMaximum, setRange, bound. rewrite Hm.
  destruct (0 <? T) eqn:E.
  - rewrite E. replace (Z.max 0 (Z.min T (value sb))) with (value sb) by lia.
    rewrite Z.eqb_refl. reflexivity.
  - apply Z.ltb_ge in E. assert (T = 0) by lia. subst T.
    change (0 <? 0) with false. cbv iota.
    replace (Z.max 0 (Z.min 0 (value sb))) with (value sb) by lia.
    rewrite Z.eqb_refl. assert (Hv0 : value sb = 0) by lia. rewrite Hv0. reflexivity.
Qed.

(** [open_mrc_file] on a stack, up to the slice selector: the middle
    slice is on the canvas. *)
Lemma open_mrc_file_shown (w : MainWindow) (filename : string) (a : np.ndarray spec_float) :
  is_stack a = true -> 1 <= depth a ->
  exists slice_data image,
    np.getitem a (depth a / 2) = Ok slice_data
    /\ render_slice slice_data = Ok image
    /\ open_mrc_file filename (Ok a) w
       = try_except create_slice_selector
           (fun e => assign (show_message_box (critical_open e)))
           (mkMainWindow
              (set_mrc_image (FromImage image) (Some (get_max_image_size w)) (image_label w))
              (foreground_action w) (background_action w) (Some a) filename
              (depth a / 2) (depth a - 1) (slice_selector w)
              (window_size w) (toolbar_height w) (message_boxes w) (files w)).
Proof.
  intros Hs Hd.
  assert (Hshape : exists n rest, np.shape a = n :: rest /\ depth a = Z.of_nat n).
  { unfold is_stack, depth in *. destruct (np.shape a) as [|n rest]; [discriminate|].
    exists n, rest. split; reflexivity. }
  destruct Hshape as (n & rest & Hshape & Hn).
  assert (Hmid : 0 <= depth a / 2 < depth a).
  { split; [apply Z.div_pos; lia | apply Z.div_lt_upper_bound; lia]. }
  set (w3 := set_total_slices (depth a - 1)
               (set_current_slice (depth a / 2)
                  (set_mrc_filename filename (set_mrc_data (Some a) w)))).
  destruct (stack_slice a (depth a / 2) Hs Hmid) as (slice_data & image & Hg & Hr).
  exists slice_data, image. split; [exact Hg|]. split; [exact Hr|].
  assert (Hshow : show_mrc_slice (depth a / 2) w3
                  = (Ok tt,
                     set_image_label
                       (set_mrc_image (FromImage image) (Some (get_max_image_size w3))
                          (image_label w3)) w3)).
  { rewrite show_mrc_slice_unfold. unfold mrc_slice. subst w3. cbn [mrc_data set_total_slices
      set_current_slice set_mrc_filename set_mrc_data]. rewrite Hg, Hr. reflexivity. }
  cbv [open_mrc_file try_except bind eval assign self].
  unfold np.len, shape0. rewrite Hshape. rewrite <- Hn.
  cbn [current_slice set_total_slices set_current_slice].
  fold w3. rewrite Hshow. reflexivity.
Qed.

Lemma open_mrc_file_loaded (w : MainWindow) (filename : string) (a : np.ndarray spec_float) :
  selector_ok w -> is_stack a = true -> 1 <= depth a ->
  let w' := snd (open_mrc_file filename (Ok a) w) in
  fst (open_mrc_file filename (Ok a) w) = Ok tt
  /\ message_boxes w' = message_boxes w
  /\ files w' = files w
  /\ mrc_data w' = Some a
  /\ mrc_filename w' = filename
  /\ total_slices w' = depth a - 1
  /\ (current_slice w' = depth a / 2 \/ current_slice w' = depth a - 1)
  /\ points_of w' = ([], [])
  /\ (exists slice_data img,
         np.getitem a (current_slice w') = Ok slice_data
         /\ render_slice slice_data = Ok img
         /\ image (image_label w') = scaled_to (Some (get_max_image_size w)) (FromImage img))
  /\ selector_ok w'
  /\ (exists sb, slice_selector w' = Some sb /\ maximum sb = depth a - 1).
Proof.
  intros Hsel Hs Hd w'. subst w'.
  destruct (open_mrc_file_shown w filename a Hs Hd) as (slice_data & image & Hg & Hr & E).
  rewrite E. clear E.
  assert (Hmid : 0 <= depth a / 2 <= depth a - 1).
  { split; [apply Z.div_pos; lia|].
    assert (depth a / 2 < depth a) by (apply Z.div_lt_upper_bound; lia). lia. }
  match goal with |- context [try_except _ _ ?w0] => set (w4 := w0) end.
  unfold selector_ok in Hsel.
  destruct (slice_selector w) as [sb|] eqn:Esel.
  - destruct Hsel as (Hc & Hm & Hv).
    assert (Hcreate : create_slice_selector w4
                      = on_slice_selector (setMaximum (depth a - 1)) w4).
    { unfold create_slice_selector. rewrite (bind_eq self _ w4 w4 w4 eq_refl).
      reflexivity. }
    destruct (Z_le_gt_dec (value sb) (depth a - 1)) as [Hle | Hgt].
    + assert (Hq : on_slice_selector (setMaximum (depth a - 1)) w4
                   = (Ok tt,
                      set_slice_selector
                        (Some (mkQSpinBox 0 (depth a - 1) (value sb) (connected sb))) w4)).
      { rewrite (on_slice_selector_quiet _ w4 sb eq_refl);
          rewrite (setMaximum_within _ sb Hm) by lia; [reflexivity | left; reflexivity]. }
      unfold try_except. rewrite Hcreate, Hq. cbn.
      do 6 (split; [reflexivity|]).
      split; [left; reflexivity|]. split; [reflexivity|].
      split; [exists slice_data, image; repeat split; assumption|].
      split; [unfold selector_ok; cbn; repeat split; try assumption; lia | eexists; split; reflexivity].
    + assert (Hagain : on_slice_selector (setMaximum (depth a - 1)) w4
                       = slice_changed (depth a - 1)
                           (set_slice_selector
                              (Some (mkQSpinBox 0 (depth a - 1) (depth a - 1) true)) w4)).
      { apply (on_slice_selector_emit _ w4 sb).
        - reflexivity.
        - rewrite (setMaximum_below _ sb Hm) by lia. rewrite Hc. reflexivity.
        - reflexivity. }
      match type of Hagain with _ = slice_changed _ ?w0 => set (w5 := w0) in * end.
      destruct (slice_changed_in_range w5 a (depth a - 1) eq_refl Hs ltac:(lia))
        as (slice_last & image_last & Hg' & Hr' & E').
      unfold try_except. rewrite Hcreate, Hagain, E'. cbn.
      do 6 (split; [reflexivity|]).
      split; [right; reflexivity|]. split; [reflexivity|].
      split; [exists slice_last, image_last; repeat split; assumption|].
      split; [unfold selector_ok; cbn; repeat split; lia | eexists; split; reflexivity].
  - assert (Hfirst : create_slice_selector w4
                     = (Ok tt,
                        set_slice_selector
                          (Some (mkQSpinBox 0 (depth a - 1) (depth a / 2) true)) w4)).
    { apply (create_slice_selector_first w4); [reflexivity | exact Hmid]. }
    unfold try_except. rewrite Hfirst. cbn.
    do 6 (split; [reflexivity|]).
      split; [left; reflexivity|]. split; [reflexivity|].
      split; [exists slice_data, image; repeat split; assumption|].
      split; [unfold selector_ok; cbn; repeat split; lia | eexists; split; reflexivity].
Qed.

(** Loading a stack into a window whose selector, if any, is as the
    program sets it up: no notice is shown, the data and the name are
    those of the file, the canvas has no point, the selector ranges
    over the slices, and the image on the canvas is the rendering of
    the current slice, which is the middle slice or, when the selector
    stood above the new last slice, the last one. *)
Theorem open_mrc_file_stack (w : MainWindow) (filename : string) (a : np.ndarray spec_float) :
  selector_ok w -> is_stack a = true -> 1 <= depth a ->
  let w' := snd (open_mrc_file filename (Ok a) w) in
  fst (open_mrc_file filename (Ok a) w) = Ok tt
  /\ message_boxes w' = message_boxes w
  /\ files w' = files w
  /\ mrc_data w' = Some a
  /\ mrc_filename w' = filename
  /\ total_slices w' = depth a - 1
  /\ (current_slice w' = depth a / 2 \/ current_slice w' = depth a - 1)
  /\ points_of w' = ([], [])
  /\ (exists slice_data img,
         np.getitem a (current_slice w') = Ok slice_data
         /\ render_slice slice_data = Ok img
         /\ image (image_label w') = scaled_to (Some (get_max_image_size w)) (FromImage img))
  /\ selector_ok w'
  /\ (exists sb, slice_selector w' = Some sb /\ maximum sb = depth a - 1).
Proof. apply open_mrc_file_loaded. Qed.

Lemma open_mrc_file_stack_witness :
  let w := snd (run [OpenAction "first.mrc" (Ok (ramp 10)); SliceSelector 9]
                  (MainWindow_init 30)) in
  let w' := snd (open_mrc_file "second.mrc" (Ok (ramp 3)) w) in
  fst (open_mrc_file "second.mrc" (Ok (ramp 3)) w) = Ok tt
  /\ message_boxes w' = message_boxes w
  /\ files w' = files w
  /\ mrc_data w' = Some (ramp 3)
  /\ mrc_filename w' = "second.mrc"%string
  /\ total_slices w' = depth (ramp 3) - 1
  /\ (current_slice w' = depth (ramp 3) / 2 \/ current_slice w' = depth (ramp 3) - 1)
  /\ points_of w' = ([], [])
  /\ (exists slice_data img,
         np.getitem (ramp 3) (current_slice w') = Ok slice_data
         /\ render_slice slice_data = Ok img
         /\ image (image_label w') = scaled_to (Some (get_max_image_size w)) (FromImage img))
  /\ selector_ok w'
  /\ (exists sb, slice_selector w' = Some sb /\ maximum sb = depth (ramp 3) - 1).
Proof.
  intros w. apply (open_mrc_file_stack w "second.mrc" (ramp 3)).
  - vm_compute. repeat split; discriminate.
  - reflexivity.
  - vm_compute. discriminate.
Defined.

(** ** The slice selector *)

(** A slice is displayed only from a stack, by an index in range. *)
Lemma show_ok_is_stack (a slice_data : np.ndarray spec_float) (i : Z) (img : QImage) :
  np.getitem a i = Ok slice_data -> render_slice slice_data = Ok img ->
  is_stack a = true /\ - depth a <= i < depth a.
Proof.
  unfold np.getitem, is_stack, depth. intros Hg Hr.
  destruct (np.shape a) as [|n rest] eqn:Es; [discriminate|].
  destruct ((- Z.of_nat n <=? i) && (i <? Z.of_nat n)) eqn:Ei; [|discriminate].
  apply andb_true_iff in Ei. destruct Ei as [H1 H2].
  apply Z.leb_le in H1. apply Z.ltb_lt in H2. split; [|lia].
  inversion Hg; subst slice_data; clear Hg.
  pose proof (render_slice_cases
                (np.mk (np.dtype a) rest
                   (firstn (np.size rest)
                      (skipn (Z.to_nat (if i <? 0 then i + Z.of_nat n else i) * np.size rest)
                         (np.data a))))) as Hres.
  rewrite Hr in Hres. cbn [np.shape] in Hres. destruct Hres as (Hshape & Hsize & _).
  rewrite Hshape in *. cbn [np.size fold_right] in Hsize.
  apply andb_true_iff. split; apply negb_true_iff, Nat.eqb_neq; nia.
Qed.

Lemma slice_changed_selector (v : Z) (w : MainWindow) :
  slice_selector (snd (slice_changed v w)) = slice_selector w.
Proof.
  apply (slice_changed_invariant (fun w' => slice_selector w' = slice_selector w));
    intros; assumption || reflexivity.
Qed.

Lemma open_mrc_file_not_stack (w : MainWindow) (filename : string)
  (a : np.ndarray spec_float) :
  (is_stack a = true /\ 1 <= depth a)
  \/ slice_selector (snd (open_mrc_file filename (Ok a) w)) = slice_selector w.
Proof.
  cbv [open_mrc_file try_except bind eval assign self].
  destruct (np.len a) as [n|e]; [|right; reflexivity].
  destruct (shape0 a) as [n0|e]; [|right; reflexivity].
  rewrite show_mrc_slice_unfold. unfold mrc_slice.
  cbn [mrc_data current_slice set_total_slices set_current_slice set_mrc_filename
       set_mrc_data].
  destruct (np.getitem a (Z.of_nat n / 2)) as [slice_data|e] eqn:Hg; [|right; reflexivity].
  destruct (render_slice slice_data) as [img|e] eqn:Hr; [|right; reflexivity].
  left. destruct (show_ok_is_stack a slice_data _ img Hg Hr) as [Hs Hi].
  split; [exact Hs|].
  assert (0 <= Z.of_nat n / 2) by (apply Z.div_pos; lia). lia.
Qed.

Lemma open_mrc_file_selector_ok (filename : string) (mrc : result (np.ndarray spec_float)) :
  invariant selector_ok (open_mrc_file filename mrc).
Proof.
  intros w Hok. destruct mrc as [a|e]; [|exact Hok].
  destruct (open_mrc_file_not_stack w filename a) as [[Hs Hd] | Hsame].
  - apply (open_mrc_file_loaded w filename a Hok Hs Hd).
  - unfold selector_ok in *. rewrite Hsame. exact Hok.
Qed.

Lemma setValue_ok (v : Z) (sb : QSpinBox) :
  connected sb = true -> minimum sb = 0 -> 0 <= value sb <= maximum sb ->
  let sb' := fst (setValue v sb) in
  connected sb' = true /\ minimum sb' = 0 /\ maximum sb' = maximum sb
  /\ value sb' = bound 0 (maximum sb) v /\ 0 <= value sb' <= maximum sb'
  /\ snd (setValue v sb) = (if value sb' =? value sb then None else Some (value sb')).
Proof.
  intros Hc Hm Hv. unfold setValue. cbn [fst snd connected minimum maximum value].
  rewrite Hm. unfold bound. repeat split; try assumption; lia.
Qed.

Lemma slice_selector_event_ok (v : Z) : invariant selector_ok (handle (SliceSelector v)).
Proof.
  intros w Hok. cbn [handle]. rewrite (bind_eq self _ w w w eq_refl).
  unfold selector_ok in Hok.
  destruct (slice_selector w) as [sb|] eqn:Es; [|unfold selector_ok; cbn; rewrite Es; exact I].
  destruct Hok as (Hc & Hm & Hv).
  destruct (setValue_ok v sb Hc Hm Hv) as (Hc' & Hm' & Hx' & _ & Hv' & _).
  unfold on_slice_selector. rewrite (bind_eq self _ w w w eq_refl). rewrite Es.
  destruct (setValue v sb) as [sb' emitted]. cbn [fst] in *.
  rewrite (bind_eq _ _ w (set_slice_selector (Some sb') w) tt eq_refl).
  assert (Hnew : selector_ok (set_slice_selector (Some sb') w)).
  { unfold selector_ok. cbn. repeat split; assumption || lia. }
  destruct emitted as [x|]; [|exact Hnew].
  rewrite Hc'. unfold selector_ok. rewrite slice_changed_selector. exact Hnew.
Qed.

Lemma handle_selector_ok (ev : event) : invariant selector_ok (handle ev).
Proof.
  destruct ev as [b pos|filename mrc|v| | | |fs].
  - intros w H. exact H.
  - unfold handle, open_image.
    destruct (String.eqb filename ""); [apply invariant_ret|].
    destruct (String.eqb _ ".mrc"); [apply open_mrc_file_selector_ok|].
    invariant_auto; assumption.
  - apply slice_selector_event_ok.
  - intros w H. exact H.
  - intros w H. exact H.
  - intros w H. exact H.
  - unfold handle, save_points. invariant_auto; assumption.
Qed.

(** Whatever the user does from the start of the program, the slice
    selector, once it exists, is connected to [slice_changed], starts
    at 0 and holds a value between 0 and its maximum: the index it
    passes to [slice_changed] is never negative. *)
Theorem selector_always_ok (toolbar : Z) (evs : list event) :
  match slice_selector (snd (run evs (MainWindow_init toolbar))) with
  | None => True
  | Some sb => connected sb = true /\ minimum sb = 0 /\ 0 <= value sb <= maximum sb
  end.
Proof.
  apply (run_invariant selector_ok evs).
  - intros ev _. apply handle_selector_ok.
  - exact I.
Qed.

(** Setting the spin box of a loaded stack, with a selector that does
    not range beyond the stack: the value is brought into the range of
    the selector; when that changes the value, the slice of the new
    value becomes the current slice and is displayed, which resets the
    points; when it does not, nothing happens.  No exception is
    raised. *)
Theorem slice_selector_event (w : MainWindow) (a : np.ndarray spec_float)
  (sb : QSpinBox) (v : Z) :
  mrc_data w = Some a -> is_stack a = true ->
  slice_selector w = Some sb ->
  connected sb = true -> minimum sb = 0 -> 0 <= value sb <= maximum sb ->
  maximum sb < depth a ->
  let v' := bound 0 (maximum sb) v in
  let w' := snd (handle (SliceSelector v) w) in
  fst (handle (SliceSelector v) w) = Ok tt
  /\ slice_selector w' = Some (mkQSpinBox 0 (maximum sb) v' true)
  /\ (v' = value sb -> w' = w)
  /\ (v' <> value sb ->
      current_slice w' = v'
      /\ points_of w' = ([], [])
      /\ exists slice_data img,
           np.getitem a v' = Ok slice_data
           /\ render_slice slice_data = Ok img
           /\ image (image_label w')
              = scaled_to (Some (get_max_image_size w)) (FromImage img)).
Proof.
  intros Hd Hs Es Hc Hm Hv Hmax v' w'. subst w'.
  cbn [handle]. rewrite (bind_eq self _ w w w eq_refl). rewrite Es.
  assert (Hset : setValue v sb
                 = (mkQSpinBox 0 (maximum sb) v' true,
                    if v' =? value sb then None else Some v')).
  { unfold setValue. rewrite Hm, Hc. reflexivity. }
  assert (Hv' : 0 <= v' <= maximum sb) by (subst v'; unfold bound; lia).
  destruct (v' =? value sb) eqn:Eq.
  - apply Z.eqb_eq in Eq.
    rewrite (on_slice_selector_quiet _ w sb Es) by (rewrite Hset; left; reflexivity).
    rewrite Hset. cbn [fst snd].
    assert (Hsame : set_slice_selector (Some (mkQSpinBox 0 (maximum sb) v' true)) w = w).
    { rewrite Eq. destruct w. cbn in Es. subst. destruct sb. cbn in *. subst. reflexivity. }
    rewrite Hsame. repeat split; try congruence.
    rewrite Es. rewrite Eq. destruct sb. cbn in *. subst. reflexivity.
  - apply Z.eqb_neq in Eq.
    rewrite (on_slice_selector_emit _ w sb (mkQSpinBox 0 (maximum sb) v' true) v' Es Hset eq_refl).
    destruct (slice_changed_in_range
                (set_slice_selector (Some (mkQSpinBox 0 (maximum sb) v' true)) w) a v'
                Hd Hs ltac:(lia))
      as (slice_data & img & Hg & Hr & E).
    rewrite E. cbn.
    split; [reflexivity|]. split; [reflexivity|]. split; [intros; contradiction|].
    intros _. split; [reflexivity|]. split; [reflexivity|].
    exists slice_data, img. repeat split; assumption.
Qed.

Lemma slice_selector_event_witness :
  let w := snd (open_mrc_file "stack.mrc" (Ok (ramp 3)) (MainWindow_init 30)) in
  let w' := snd (handle (SliceSelector 7) w) in
  fst (handle (SliceSelector 7) w) = Ok tt
  /\ slice_selector w' = Some (mkQSpinBox 0 2 2 true)
  /\ current_slice w' = 2.
Proof.
  intros w.
  destruct (slice_selector_event w (ramp 3) (mkQSpinBox 0 2 1 true) 7)
    as (H1 & H2 & _ & H4).
  - reflexivity.
  - reflexivity.
  - reflexivity.
  - reflexivity.
  - reflexivity.
  - cbn. lia.
  - vm_compute. reflexivity.
  - split; [exact H1|]. split; [exact H2|].
    apply H4. vm_compute. discriminate.
Defined.

(** ** Insertion order and the archive *)

(** Left clicks in one mode append their positions, in the order of the
    clicks, to the list of that mode; positions clicked twice are kept
    twice, and the other list is as before. *)
Theorem left_clicks_append (positions : list QPoint.t) :
  forall self : ImageLabel,
    let self' := fold_left (fun s pos => mousePressEvent LeftButton pos s) positions self in
    current_mode self' = current_mode self
    /\ match current_mode self with
       | foreground =>
           points_foreground self' = points_foreground self ++ positions
           /\ points_background self' = points_background self
       | background =>
           points_foreground self' = points_foreground self
           /\ points_background self' = points_background self ++ positions
       end.
Proof.
  induction positions as [|pos positions IH]; intros self; cbn [fold_left].
  - split; [reflexivity|]. rewrite !app_nil_r. destruct (current_mode self); split; reflexivity.
  - specialize (IH (mousePressEvent LeftButton pos self)). cbv zeta in IH.
    destruct IH as [Hm IH]. rewrite mousePressEvent_mode in Hm, IH.
    split; [exact Hm|].
    destruct (current_mode self) eqn:Em; destruct IH as [Hf Hb]; rewrite Hf, Hb;
      cbn [mousePressEvent]; rewrite Em; cbn; rewrite <- ?app_assoc; split; reflexivity.
Qed.

Lemma points_of_rows_rows (l : list QPoint.t) :
  points_of_rows (List.concat (rows l)) = l.
Proof.
  induction l as [|[x y] l IH]; [reflexivity|].
  cbn. unfold rows in IH. rewrite IH. reflexivity.
Qed.

Lemma labelled_zeros (label : Z) (bg : list QPoint.t) :
  List.map fst (filter (fun pl : QPoint.t * Z => snd pl =? label)
                  (combine bg (repeat 0 (Datatypes.length bg))))
  = if 0 =? label then bg else [].
Proof.
  induction bg as [|q bg IH]; cbn [Datatypes.length repeat combine filter snd].
  - destruct (0 =? label); reflexivity.
  - destruct (0 =? label); cbn [List.map fst]; rewrite IH; reflexivity.
Qed.

Lemma labelled_ones (label : Z) (fg bg : list QPoint.t) :
  List.map fst (filter (fun pl : QPoint.t * Z => snd pl =? label)
                  (combine (fg ++ bg)
                     (repeat 1 (Datatypes.length fg) ++ repeat 0 (Datatypes.length bg))))
  = (if 1 =? label then fg else []) ++ (if 0 =? label then bg else []).
Proof.
  induction fg as [|p fg IH]; cbn [Datatypes.length repeat combine filter snd app].
  - rewrite labelled_zeros. destruct (1 =? label); reflexivity.
  - destruct (1 =? label); cbn [List.map fst]; rewrite IH; reflexivity.
Qed.

(** Round trip of a save with points of both classes: the rows of
    [points] labelled 1 are the foreground points and the rows
    labelled 0 the background points, each in insertion order. *)
Theorem archive_round_trip (fs : filesystem) (w : MainWindow) (path : string)
  (archive : npz) :
  points_foreground (image_label w) <> [] ->
  points_background (image_label w) <> [] ->
  In (path, archive) (files (snd (save_points fs w))) ->
  ~ In (path, archive) (files w) ->
  labelled 1 archive = points_foreground (image_label w)
  /\ labelled 0 archive = points_background (image_label w)
  /\ npz_filename archive = mrc_filename w.
Proof.
  intros Hf Hb Hin Hnew.
  pose proof (save_points_cases fs w) as Hc. cbv zeta in Hc.
  destruct Hc as [(e & E & _) | [(e & all & _ & _ & E) | (all & labels & Hs & Hv & E)]];
    rewrite E in Hin; cbn [snd] in Hin; try contradiction.
  cbn in Hin. destruct Hin as [Heq | Hold]; [|contradiction].
  assert (Hdir : path_exists fs = true \/ makedirs fs = Ok tt).
  { destruct (path_exists fs) eqn:Ep; [left; reflexivity|]. right.
    revert E. unfold save_points. unfold bind at 1. rewrite Ep. unfold eval at 1.
    destruct (makedirs fs) as [[]|e]; [reflexivity | discriminate]. }
  destruct (save_points_both_nonempty fs w Hf Hb Hdir Hs) as (save_path & _ & Hfiles).
  cbv zeta in Hfiles. rewrite E in Hfiles. cbn in Hfiles.
  inversion Hfiles as [[Hp Hall Hlab]]. inversion Heq; subst archive path.
  unfold labelled. cbn [npz_points npz_labels npz_filename np.data].
  rewrite Hall, Hlab. cbn [np.data]. rewrite points_of_rows_rows.
  rewrite !labelled_ones. cbn. rewrite app_nil_r. repeat split.
Qed.

Lemma archive_round_trip_witness :
  let w := snd (run [MousePress LeftButton (QPoint.mk 5 6);
                     MousePress LeftButton (QPoint.mk 5 6);
                     BackgroundAction;
                     MousePress LeftButton (QPoint.mk 3 4)] (MainWindow_init 30)) in
  let archive := mk_npz "" (np.mk np.int64 [3%nat; 2%nat] [5; 6; 5; 6; 3; 4])
                   (np.mk np.int64 [3%nat] [1; 1; 0]) in
  labelled 1 archive = [QPoint.mk 5 6; QPoint.mk 5 6]
  /\ labelled 0 archive = [QPoint.mk 3 4]
  /\ npz_filename archive = ""%string.
Proof.
  intros w archive.
  apply (archive_round_trip (mk_filesystem true (Ok tt) (Ok tt)) w
           "input_points/image_points.npz" archive).
  - discriminate.
  - discriminate.
  - left. reflexivity.
  - intros [].
Defined.
